(** * Series Complete for Plex: the Home Assistant integration

    A shallow embedding of [custom_components/series_complete]:
    the polling coordinator ([coordinator.py]), the sensor platform
    ([sensor.py]) and the config flow with its hostname auto-detection
    ([config_flow.py]).

    Python values are the values [json.loads] can produce.  Integers are
    unbounded ([Z]); floats are IEEE 754 binary64, through the executable
    specification [SpecFloat] of the standard library (precision 53,
    [emax] 1024), so that [/], [*], the comparisons and [round] behave
    as in CPython, rounding included. *)

From Stdlib Require Import ZArith List String Ascii Bool Lia.
From Stdlib Require Import DecimalString DecimalZ DecimalPos Permutation.
From Stdlib Require Import Floats.SpecFloat.
Import ListNotations.
Open Scope string_scope.
Open Scope list_scope.
Open Scope Z_scope.

(** ** Exceptions and the result of a call *)

Inductive update_failure : Type :=
| ErrorCommunicating     (* raised from aiohttp.ClientError *)
| TimeoutCommunicating.  (* raised from TimeoutError *)

Inductive exn : Type :=
| UpdateFailed (why : update_failure)
| TypeError
| AttributeError
| OverflowError
| ZeroDivisionError
| ValueError.            (* json.JSONDecodeError *)

Inductive result (A : Type) : Type :=
| Ok (a : A)
| Raise (e : exn).

Arguments Ok {A} a.
Arguments Raise {A} e.

Definition bind {A B : Type} (c : result A) (k : A -> result B) : result B :=
  match c with
  | Ok a => k a
  | Raise e => Raise e
  end.

Notation "x <- c ;; k" := (bind c (fun x => k))
  (at level 61, c at next level, right associativity).

(** ** Binary64 floats *)

Module F.

Definition prec : Z := 53.
Definition emax : Z := 1024.

Definition float : Type := spec_float.

Definition zero : float := S754_zero false.

Definition div : float -> float -> float := SFdiv prec emax.
Definition mul : float -> float -> float := SFmul prec emax.

(** An integer as an unrounded significand with exponent 0. *)
Definition raw (z : Z) : float :=
  match z with
  | Z0 => S754_zero false
  | Zpos p => S754_finite false p 0
  | Zneg p => S754_finite true p 0
  end.

(** The nearest float of an integer (ties to even). *)
Definition of_Z (z : Z) : float := binary_normalize prec emax z 0 false.

Definition is_inf (x : float) : bool :=
  match x with S754_infinity _ => true | _ => false end.

Definition is_zero (x : float) : bool :=
  match x with S754_zero _ => true | _ => false end.

Definition ltb (x y : float) : bool := SFltb x y.
Definition leb (x y : float) : bool := SFleb x y.
(** [x >= y] and [x > y]: false as soon as one side is a NaN. *)
Definition geb (x y : float) : bool := SFleb y x.
Definition gtb (x y : float) : bool := SFltb y x.

(** [x * 10] rounded to the nearest integer, ties to even, on the exact
    value [m * 2^e] of a finite float. *)
Definition nearest_tenths (m : positive) (e : Z) : Z :=
  match e with
  | Zneg p =>
      let n := 10 * Zpos m in
      let d := 2 ^ Zpos p in
      let q := n / d in
      let r := n mod d in
      match 2 * r ?= d with
      | Lt => q
      | Gt => q + 1
      | Eq => if Z.even q then q else q + 1
      end
  | _ => 10 * Zpos m * 2 ^ e
  end.

(** [round(x, 1)] of CPython: the exact value of [x] is rounded to one
    decimal digit (ties to even) and the decimal [k/10] is read back as
    the nearest float.  Infinities and NaN round to themselves. *)
Definition round1 (x : float) : float :=
  match x with
  | S754_finite s m e =>
      match nearest_tenths m e with
      | Zpos k => div (S754_finite s k 0) (raw 10)
      | _ => S754_zero s
      end
  | _ => x
  end.

End F.

(** ** Python values *)

(** The values [json.loads] builds.  A [PDict] lists the entries of a
    dict, whose keys are distinct. *)

#[warnings="-register-all"]
Inductive pyval : Type :=
| PNone
| PBool (b : bool)
| PInt (z : Z)
| PFloat (f : F.float)
| PStr (s : string)
| PList (l : list pyval)
| PDict (kv : list (string * pyval)).

(** Truth value testing. *)
Definition truthy (v : pyval) : bool :=
  match v with
  | PNone => false
  | PBool b => b
  | PInt z => negb (z =? 0)
  | PFloat f => negb (F.is_zero f)
  | PStr s => negb (String.eqb s "")
  | PList l => match l with [] => false | _ => true end
  | PDict kv => match kv with [] => false | _ => true end
  end.

Fixpoint lookup (key : string) (kv : list (string * pyval)) : option pyval :=
  match kv with
  | [] => None
  | (k, v) :: rest => if String.eqb k key then Some v else lookup key rest
  end.

(** [s.get(key, default)]: only a dict has the method. *)
Definition py_get (s : pyval) (key : string) (default : pyval) : result pyval :=
  match s with
  | PDict kv =>
      match lookup key kv with
      | Some v => Ok v
      | None => Ok default
      end
  | _ => Raise AttributeError
  end.

(** [v > n] for an integer literal [n] that a float holds exactly. *)
Definition py_gt_int (v : pyval) (n : Z) : result bool :=
  match v with
  | PInt z => Ok (n <? z)
  | PBool b => Ok (n <? Z.b2z b)
  | PFloat f => Ok (F.gtb f (F.of_Z n))
  | _ => Raise TypeError
  end.

(** [int / int]: the exact quotient, correctly rounded. *)
Definition int_truediv (a b : Z) : result F.float :=
  if b =? 0 then Raise ZeroDivisionError
  else
    let q := F.div (F.raw a) (F.raw b) in
    if F.is_inf q then Raise OverflowError else Ok q.

(** [float / float]. *)
Definition float_truediv (a b : F.float) : result F.float :=
  if F.is_zero b then Raise ZeroDivisionError else Ok (F.div a b).

(** The conversion of an [int] operand of a float operation. *)
Definition int_as_float (z : Z) : result F.float :=
  let f := F.of_Z z in
  if F.is_inf f then Raise OverflowError else Ok f.

Inductive number : Type :=
| NInt (z : Z)
| NFloat (f : F.float).

Definition as_number (v : pyval) : option number :=
  match v with
  | PInt z => Some (NInt z)
  | PBool b => Some (NInt (Z.b2z b))
  | PFloat f => Some (NFloat f)
  | _ => None
  end.

(** [a / b] *)
Definition py_truediv (a b : pyval) : result F.float :=
  match as_number a, as_number b with
  | Some (NInt x), Some (NInt y) => int_truediv x y
  | Some (NFloat x), Some (NFloat y) => float_truediv x y
  | Some (NInt x), Some (NFloat y) =>
      fx <- int_as_float x ;; float_truediv fx y
  | Some (NFloat x), Some (NInt y) =>
      fy <- int_as_float y ;; float_truediv x fy
  | _, _ => Raise TypeError
  end.

(** [f * n], [f >= n] and [f < n] for a small integer literal [n]. *)
Definition fmul_int (f : F.float) (n : Z) : F.float := F.mul f (F.of_Z n).
Definition fge_int (f : F.float) (n : Z) : bool := F.geb f (F.of_Z n).
Definition flt_int (f : F.float) (n : Z) : bool := F.ltb f (F.of_Z n).

(** ** The coordinator ([coordinator.py]) *)

(** The dict built by [_async_update_data]; its six keys are fixed. *)
Record Snapshot : Type := mkSnapshot {
  total : Z;
  complete : Z;
  incomplete : Z;
  critical : Z;
  completion_pct : F.float;
  series : list pyval
}.

(** The value [data] starts from, before the request is made. *)
Definition initial_data : Snapshot :=
  {| total := 0; complete := 0; incomplete := 0; critical := 0;
     completion_pct := F.zero; series := [] |}.

Definition incr_complete (d : Snapshot) : Snapshot :=
  {| total := total d; complete := complete d + 1;
     incomplete := incomplete d; critical := critical d;
     completion_pct := completion_pct d; series := series d |}.

Definition incr_incomplete (d : Snapshot) : Snapshot :=
  {| total := total d; complete := complete d;
     incomplete := incomplete d + 1; critical := critical d;
     completion_pct := completion_pct d; series := series d |}.

Definition incr_critical (d : Snapshot) : Snapshot :=
  {| total := total d; complete := complete d;
     incomplete := incomplete d; critical := critical d + 1;
     completion_pct := completion_pct d; series := series d |}.

Definition set_series (l : list pyval) (d : Snapshot) : Snapshot :=
  {| total := Z.of_nat (List.length l); complete := complete d;
     incomplete := incomplete d; critical := critical d;
     completion_pct := completion_pct d; series := l |}.

Definition set_completion_pct (f : F.float) (d : Snapshot) : Snapshot :=
  {| total := total d; complete := complete d;
     incomplete := incomplete d; critical := critical d;
     completion_pct := f; series := series d |}.

(** [complete + incomplete + critical] *)
Definition analyzed (d : Snapshot) : Z :=
  complete d + incomplete d + critical d.

(** [total_eps and total_eps > 0], as the condition of an [if]. *)
Definition has_episodes (total_eps : pyval) : result bool :=
  if truthy total_eps then py_gt_int total_eps 0 else Ok false.

(** [(owned_eps / total_eps) * 100] *)
Definition percentage (owned_eps total_eps : pyval) : result F.float :=
  q <- py_truediv owned_eps total_eps ;; Ok (fmul_int q 100).

(** The three-way test on [pct]. *)
Definition classify (pct : F.float) (d : Snapshot) : Snapshot :=
  if fge_int pct 100 then incr_complete d
  else if flt_int pct 50 then incr_critical d
  else incr_incomplete d.

(** The body of [for s in series_list]. *)
Definition count_series (d : Snapshot) (s : pyval) : result Snapshot :=
  total_eps <- py_get s "totalEpisodes" (PInt 0) ;;
  owned_eps <- py_get s "episode_count" (PInt 0) ;;
  counted <- has_episodes total_eps ;;
  if counted then
    pct <- percentage owned_eps total_eps ;;
    Ok (classify pct d)
  else Ok d.

(** The loop: it stops at the first exception. *)
Fixpoint count_all (d : Snapshot) (l : list pyval) : result Snapshot :=
  match l with
  | [] => Ok d
  | s :: rest => d' <- count_series d s ;; count_all d' rest
  end.

(** The last statement of the [status == 200] branch. *)
Definition set_percentage (d : Snapshot) : result Snapshot :=
  if 0 <? analyzed d then
    q <- py_truediv (PInt (complete d)) (PInt (analyzed d)) ;;
    Ok (set_completion_pct (F.round1 (fmul_int q 100)) d)
  else Ok d.

(** What [await resp.json()] does when it is reached. *)
Inductive json_outcome : Type :=
| JsonBody (v : pyval)
| JsonClientError      (* aiohttp.ContentTypeError, ClientPayloadError *)
| JsonTimeout
| JsonDecodeError.     (* a ValueError: not caught by the coordinator *)

(** What [session.post(...)] does. *)
Inductive post_outcome : Type :=
| PostClientError
| PostTimeout
| PostResponse (status : Z) (body : json_outcome).

(** [result if isinstance(result, list) else []] *)
Definition as_series_list (v : pyval) : list pyval :=
  match v with
  | PList l => l
  | _ => []
  end.

Definition process_body (v : pyval) : result Snapshot :=
  let series_list := as_series_list v in
  d <- count_all (set_series series_list initial_data) series_list ;;
  set_percentage d.

(** [_async_update_data] for one outcome of the POST to /api/get-series. *)
Definition async_update_data (r : post_outcome) : result Snapshot :=
  match r with
  | PostClientError => Raise (UpdateFailed ErrorCommunicating)
  | PostTimeout => Raise (UpdateFailed TimeoutCommunicating)
  | PostResponse status body =>
      if status =? 200 then
        match body with
        | JsonBody v => process_body v
        | JsonClientError => Raise (UpdateFailed ErrorCommunicating)
        | JsonTimeout => Raise (UpdateFailed TimeoutCommunicating)
        | JsonDecodeError => Raise ValueError
        end
      else Ok initial_data
  end.

(** *** The refresh step of the host framework *)

(** The coordinator's fields the integration reads: [data] is [None]
    until a refresh succeeds. *)
Record Coordinator : Type := mkCoordinator {
  data : option Snapshot;
  last_update_success : bool
}.

Definition new_coordinator : Coordinator :=
  {| data := None; last_update_success := true |}.

(** Modelled from the spec: the refresh of Home Assistant's
    DataUpdateCoordinator, the base class of the coordinator, which is not
    in this repository.  A returned snapshot replaces [data]; an exception
    marks the update failed and keeps the cached [data] ("keep latest
    snapshot", written "only after a fetch fully completes"). *)
Definition refresh (c : Coordinator) (r : post_outcome) : Coordinator :=
  match async_update_data r with
  | Ok d => {| data := Some d; last_update_success := true |}
  | Raise _ => {| data := data c; last_update_success := false |}
  end.

(** The coordinator after a sequence of poll ticks. *)
Definition run (c : Coordinator) (ticks : list post_outcome) : Coordinator :=
  fold_left refresh ticks c.

(** ** The sensors ([sensor.py]) *)

(** The snapshot read as the dict it is: [data.get(key, default)]. *)
Definition snapshot_get (d : Snapshot) (key : string) (default : pyval) : pyval :=
  if String.eqb key "total" then PInt (total d)
  else if String.eqb key "complete" then PInt (complete d)
  else if String.eqb key "incomplete" then PInt (incomplete d)
  else if String.eqb key "critical" then PInt (critical d)
  else if String.eqb key "completion_pct" then PFloat (completion_pct d)
  else if String.eqb key "series" then PList (series d)
  else default.

Record SeriesCompleteSensorDescription : Type := mkDescription {
  key : string;
  translation_key : string;
  native_unit_of_measurement : string;
  icon : string;
  value_fn : Snapshot -> pyval
}.

Definition total_sensor : SeriesCompleteSensorDescription :=
  {| key := "total"; translation_key := "total_series";
     native_unit_of_measurement := "series"; icon := "mdi:television";
     value_fn := fun d => snapshot_get d "total" (PInt 0) |}.

Definition complete_sensor : SeriesCompleteSensorDescription :=
  {| key := "complete"; translation_key := "complete_series";
     native_unit_of_measurement := "series"; icon := "mdi:check-circle";
     value_fn := fun d => snapshot_get d "complete" (PInt 0) |}.

Definition incomplete_sensor : SeriesCompleteSensorDescription :=
  {| key := "incomplete"; translation_key := "incomplete_series";
     native_unit_of_measurement := "series"; icon := "mdi:alert-circle";
     value_fn := fun d => snapshot_get d "incomplete" (PInt 0) |}.

Definition critical_sensor : SeriesCompleteSensorDescription :=
  {| key := "critical"; translation_key := "critical_series";
     native_unit_of_measurement := "series"; icon := "mdi:alert";
     value_fn := fun d => snapshot_get d "critical" (PInt 0) |}.

Definition completion_sensor : SeriesCompleteSensorDescription :=
  {| key := "completion"; translation_key := "completion_rate";
     native_unit_of_measurement := "%"; icon := "mdi:percent";
     value_fn := fun d => snapshot_get d "completion_pct" (PFloat F.zero) |}.

Definition SENSORS : list SeriesCompleteSensorDescription :=
  [total_sensor; complete_sensor; incomplete_sensor; critical_sensor;
   completion_sensor].

(** The property [native_value] of a sensor: it reads the coordinator and
    hands it back as it found it. *)
Definition native_value (description : SeriesCompleteSensorDescription)
    (c : Coordinator) : pyval * Coordinator :=
  match data c with
  | None => (PNone, c)
  | Some d => (value_fn description d, c)
  end.

(** ** Auto-detection ([config_flow.py]) *)

Definition ADDON_PORT : Z := 3000.
Definition ADDON_SLUG : string := "series-complete-plex".
Definition ADDON_HASH_PREFIX : string := "e81ba94f".

Definition FALLBACK_HOSTNAMES : list string :=
  [ (ADDON_HASH_PREFIX ++ "-" ++ ADDON_SLUG)%string;
    ("local-" ++ ADDON_SLUG)%string;
    ADDON_SLUG ].

(** What a GET of /api/test-connection does within its timeout. *)
Inductive get_outcome : Type :=
| GetClientError
| GetTimeout
| GetResponse (status : Z).

Section Detect.

(** The network: the outcome of the probe of a host and port. *)
Variable probe : string -> Z -> get_outcome.

(** The loop of [_detect_app], with the hostnames probed so far. *)
Fixpoint detect_from (hostnames : list string) (probed : list string)
    : option (string * Z) * list string :=
  match hostnames with
  | [] => (None, probed)
  | hostname :: rest =>
      match probe hostname ADDON_PORT with
      | GetResponse status =>
          if status =? 200
          then (Some (hostname, ADDON_PORT), probed ++ [hostname])
          else detect_from rest (probed ++ [hostname])
      | GetClientError | GetTimeout =>
          detect_from rest (probed ++ [hostname])
      end
  end.

Definition detect_app : option (string * Z) * list string :=
  detect_from FALLBACK_HOSTNAMES [].

End Detect.

(** ** Setting up an entry ([config_flow.py], [coordinator.py], [sensor.py]) *)

(** [str(n)] of an [int], as an f-string formats it. *)
Definition py_str_int (z : Z) : string := NilZero.string_of_int (Z.to_int z).

(** The module [const.py], which the sources import and do not contain:
    its four constants are parameters of what follows. *)
Record Const : Type := mkConst {
  DOMAIN : string;
  DEFAULT_HOST : string;
  DEFAULT_PORT : Z;
  DEFAULT_SCAN_INTERVAL : Z
}.

(** The data of a config entry: a dict with the keys [CONF_HOST],
    [CONF_PORT] and [CONF_SCAN_INTERVAL], each of which may be absent. *)
Record EntryData : Type := mkEntryData {
  conf_host : option string;
  conf_port : option Z;
  conf_scan_interval : option Z
}.

(** The input the form of the user step lets through: a host, a port and,
    optionally, the polling interval. *)
Record UserInput : Type := mkUserInput {
  input_host : string;
  input_port : Z;
  input_scan_interval : option Z
}.

(** What the Supervisor sends: the slug of the add-on and its [config]
    dict, in which ["host"] and ["port"] may be absent. *)
Record HassioServiceInfo : Type := mkHassioServiceInfo {
  slug : string;
  config_host : option string;
  config_port : option Z
}.

(** The attributes of a flow in progress. *)
Record Flow : Type := mkFlow {
  unique_id : option string;
  _hassio_discovery : option HassioServiceInfo;
  _discovered_host : string;
  _discovered_port : Z
}.

Inductive Form : Type :=
| UserForm (default_host : string) (default_port : Z)
    (default_scan_interval : Z) (errors : list (string * string))
| ConfirmForm (description_placeholders : list (string * string)).

(** The result of a step.  An abort carries the [updates] the step asks
    the framework to write into the entry that is already there. *)
Inductive FlowResult : Type :=
| CreateEntry (title : string) (entry : EntryData)
| ShowForm (step_id : string) (form : Form)
| AbortFlow (reason : string) (updates : option (string * Z)).

(** A GET, with the total timeout of the request in seconds. *)
Record Request : Type := mkRequest {
  request_timeout : Z;
  request_url : string
}.

(** [f"http://{host}:{port}/api/test-connection"] *)
Definition test_connection_url (host : string) (port : Z) : string :=
  ("http://" ++ host ++ ":" ++ py_str_int port ++ "/api/test-connection")%string.

(** [f"manual_{host}_{port}"] and [f"hassio_{discovery_info.slug}"] *)
Definition manual_unique_id (host : string) (port : Z) : string :=
  ("manual_" ++ host ++ "_" ++ py_str_int port)%string.

Definition hassio_unique_id (s : string) : string := ("hassio_" ++ s)%string.

Definition set_unique_id (uid : string) (flow : Flow) : Flow :=
  {| unique_id := Some uid;
     _hassio_discovery := _hassio_discovery flow;
     _discovered_host := _discovered_host flow;
     _discovered_port := _discovered_port flow |}.

Definition in_strings (x : string) (l : list string) : bool :=
  existsb (String.eqb x) l.

Section ConfigFlow.

Variable const : Const.

(** The unique ids of the entries of this integration that exist. *)
Variable configured : list string.

(** The network: the outcome of a GET of a URL under a timeout. *)
Variable get : Z -> string -> get_outcome.

(** A flow as it is created: the class attributes. *)
Definition new_flow : Flow :=
  {| unique_id := None; _hassio_discovery := None;
     _discovered_host := DEFAULT_HOST const;
     _discovered_port := DEFAULT_PORT const |}.

(** [_validate_connection]: the answer and the request it made. *)
Definition validate_connection (host : string) (port : Z) : bool * list Request :=
  let url := test_connection_url host port in
  (match get 10 url with
   | GetResponse status => status =? 200
   | GetClientError | GetTimeout => false
   end,
   [ {| request_timeout := 10; request_url := url |} ]).

(** [_detect_app] on this network, with the requests it made. *)
Definition detect_requests : option (string * Z) * list Request :=
  let '(detected, probed) :=
    detect_app (fun hostname port => get 3 (test_connection_url hostname port)) in
  (detected,
   map (fun hostname =>
          {| request_timeout := 3;
             request_url := test_connection_url hostname ADDON_PORT |})
       probed).

(** The end of [async_step_user]: auto-detection, then the form. *)
Definition show_user_form (errors : list (string * string)) : FlowResult * list Request :=
  let '(detected, requests) := detect_requests in
  let default_host :=
    match detected with Some (h, _) => h | None => DEFAULT_HOST const end in
  let default_port :=
    match detected with Some (_, p) => p | None => DEFAULT_PORT const end in
  (ShowForm "user"
     (UserForm default_host default_port (DEFAULT_SCAN_INTERVAL const) errors),
   requests).

(** [async_step_user]: the result, the flow afterwards and the requests
    made, in order.  [async_set_unique_id] and
    [_abort_if_unique_id_configured] are the framework's.  Modelled from
    the spec: the first records the unique id of the flow, the second
    aborts when that id is the one of an existing entry ("abort if
    already configured"); other flows in progress are left out. *)
Definition async_step_user (flow : Flow) (user_input : option UserInput)
    : FlowResult * Flow * list Request :=
  match user_input with
  | Some input =>
      let host := input_host input in
      let port := input_port input in
      let '(reachable, requests) := validate_connection host port in
      if reachable then
        let uid := manual_unique_id host port in
        let flow' := set_unique_id uid flow in
        if in_strings uid configured
        then (AbortFlow "already_configured" None, flow', requests)
        else
          (CreateEntry
             ("Series Complete (" ++ host ++ ":" ++ py_str_int port ++ ")")%string
             {| conf_host := Some host;
                conf_port := Some port;
                conf_scan_interval :=
                  Some (match input_scan_interval input with
                        | Some seconds => seconds
                        | None => DEFAULT_SCAN_INTERVAL const
                        end) |},
           flow', requests)
      else
        let '(form, detection) := show_user_form [("base", "cannot_connect")] in
        (form, flow, requests ++ detection)
  | None =>
      let '(form, detection) := show_user_form [] in
      (form, flow, detection)
  end.

(** [async_step_hassio_confirm]; [user_input] is only tested for
    [None]. *)
Definition async_step_hassio_confirm (flow : Flow) (user_input : option pyval)
    : FlowResult * Flow :=
  match user_input with
  | Some _ =>
      (CreateEntry "Series Complete for Plex"
         {| conf_host := Some (_discovered_host flow);
            conf_port := Some (_discovered_port flow);
            conf_scan_interval := Some (DEFAULT_SCAN_INTERVAL const) |},
       flow)
  | None =>
      (ShowForm "hassio_confirm"
         (ConfirmForm
            [ ("addon", "Series Complete for Plex");
              ("host", _discovered_host flow);
              ("port", py_str_int (_discovered_port flow)) ]),
       flow)
  end.

(** [async_step_hassio] *)
Definition async_step_hassio (flow : Flow) (discovery_info : HassioServiceInfo)
    : FlowResult * Flow :=
  let host :=
    match config_host discovery_info with
    | Some h => h
    | None => DEFAULT_HOST const
    end in
  let port :=
    match config_port discovery_info with
    | Some p => p
    | None => ADDON_PORT
    end in
  let uid := hassio_unique_id (slug discovery_info) in
  let flow1 :=
    {| unique_id := Some uid;
       _hassio_discovery := _hassio_discovery flow;
       _discovered_host := host;
       _discovered_port := port |} in
  if in_strings uid configured
  then (AbortFlow "already_configured" (Some (host, port)), flow1)
  else
    async_step_hassio_confirm
      {| unique_id := Some uid;
         _hassio_discovery := Some discovery_info;
         _discovered_host := host;
         _discovered_port := port |}
      None.

(** What [SeriesCompleteCoordinator.__init__] keeps of an entry. *)
Record CoordinatorConfig : Type := mkCoordinatorConfig {
  _host : string;
  _port : Z;
  _base_url : string;
  update_interval : Z  (* seconds *)
}.

(** [SeriesCompleteCoordinator.__init__]: the name of the missing key
    when [config_entry.data[...]] raises KeyError. *)
Definition coordinator_init (entry : EntryData) : CoordinatorConfig + string :=
  match conf_host entry with
  | None => inr "host"
  | Some host =>
      match conf_port entry with
      | None => inr "port"
      | Some port =>
          inl {| _host := host;
                 _port := port;
                 _base_url := ("http://" ++ host ++ ":" ++ py_str_int port)%string;
                 update_interval :=
                   match conf_scan_interval entry with
                   | Some seconds => seconds
                   | None => DEFAULT_SCAN_INTERVAL const
                   end |}
      end
  end.

(** The URL the update posts to: [f"{self._base_url}/api/get-series"]. *)
Definition get_series_url (c : CoordinatorConfig) : string :=
  (_base_url c ++ "/api/get-series")%string.

(** What [SeriesCompleteSensor.__init__] sets. *)
Record SeriesCompleteSensor : Type := mkSensor {
  entity_description : SeriesCompleteSensorDescription;
  _attr_unique_id : string;
  device_identifiers : list (string * string);
  configuration_url : string
}.

Definition sensor_init (entry_id : string) (c : CoordinatorConfig)
    (description : SeriesCompleteSensorDescription) : SeriesCompleteSensor :=
  {| entity_description := description;
     _attr_unique_id := (entry_id ++ "_" ++ key description)%string;
     device_identifiers := [(DOMAIN const, entry_id)];
     configuration_url :=
       ("http://" ++ _host c ++ ":" ++ py_str_int (_port c))%string |}.

(** [async_setup_entry] of [sensor.py]: the entities handed to
    [async_add_entities]. *)
Definition sensor_setup_entry (entry_id : string) (c : CoordinatorConfig)
    : list SeriesCompleteSensor :=
  map (sensor_init entry_id c) SENSORS.

End ConfigFlow.

(** ** Series records, as the add-on sends them *)

(** The integer in a field of a record: 0 when the key is absent (the
    default of [get]), nothing when the value is not an [int]. *)
Definition int_field (key : string) (kv : list (string * pyval)) : option Z :=
  match lookup key kv with
  | None => Some 0
  | Some (PInt z) => Some z
  | Some _ => None
  end.

(** Below this magnitude an [int] divided by a non-zero [int] is within
    the range of a float. *)
Definition float_range : Z := 2 ^ 1023.

(** A series record [{totalEpisodes: int, episode_count: int, ...}]:
    an object whose two fields, when present, are integers. *)
Definition is_series_record (s : pyval) : bool :=
  match s with
  | PDict kv =>
      match int_field "totalEpisodes" kv, int_field "episode_count" kv with
      | Some _, Some owned => Z.abs owned <? float_range
      | _, _ => false
      end
  | _ => false
  end.

(** The records whose [totalEpisodes] field is present and [> 0]: a
    positive integer, and also [true] and a positive float, which Python
    takes for numbers above 0. *)
Definition total_episodes_positive (s : pyval) : bool :=
  match s with
  | PDict kv =>
      match lookup "totalEpisodes" kv with
      | Some (PInt t) => 0 <? t
      | Some (PBool b) => b
      | Some (PFloat f) => F.gtb f F.zero
      | _ => false
      end
  | _ => false
  end.

Definition count_positive (l : list pyval) : Z :=
  Z.of_nat (List.length (filter total_episodes_positive l)).

(** A record with both fields, among others. *)
Definition series_of (title : string) (owned total_eps : Z) : pyval :=
  PDict [("title", PStr title); ("episode_count", PInt owned);
         ("totalEpisodes", PInt total_eps)].

Definition is_list (v : pyval) : bool :=
  match v with
  | PList _ => true
  | _ => false
  end.

(** The outcomes of the POST the spec calls failures. *)
Definition transport_failure (r : post_outcome) : bool :=
  match r with
  | PostClientError | PostTimeout => true
  | PostResponse status body =>
      (status =? 200) &&
      match body with
      | JsonClientError | JsonTimeout => true
      | _ => false
      end
  end.

Definition non_200 (r : post_outcome) : bool :=
  match r with
  | PostResponse status _ => negb (status =? 200)
  | _ => false
  end.

(** A probe that answers with status 200. *)
Definition answers_200 (o : get_outcome) : bool :=
  match o with
  | GetResponse status => status =? 200
  | _ => false
  end.

(** [extends d d' n]: [d'] is [d] with [n] more records classified;
    nothing but the three counters differs. *)
Definition extends (d d' : Snapshot) (n : Z) : Prop :=
  total d' = total d /\ series d' = series d /\
  completion_pct d' = completion_pct d /\
  complete d <= complete d' /\ incomplete d <= incomplete d' /\
  critical d <= critical d' /\
  analyzed d' = analyzed d + n.

(** The percentage of a record whose two fields are integers. *)
Definition record_pct (s : pyval) : F.float :=
  match s with
  | PDict kv =>
      match int_field "totalEpisodes" kv, int_field "episode_count" kv with
      | Some t, Some owned => fmul_int (F.div (F.raw owned) (F.raw t)) 100
      | _, _ => F.zero
      end
  | _ => F.zero
  end.

(** [round((complete / analyzed) * 100, 1)] *)
Definition rounded_percentage (complete_n analyzed_n : Z) : F.float :=
  F.round1 (fmul_int (F.div (F.raw complete_n) (F.raw analyzed_n)) 100).

(** What holds of every dict [_async_update_data] returns. *)
Definition snapshot_inv (d : Snapshot) : Prop :=
  total d = Z.of_nat (List.length (series d)) /\
  0 <= complete d /\ 0 <= incomplete d /\ 0 <= critical d /\
  analyzed d <= total d /\
  completion_pct d =
    (if 0 <? analyzed d then rounded_percentage (complete d) (analyzed d)
     else F.zero).

(** ** The loop, one record at a time *)

Inductive bucket : Type := Complete | Critical | Incomplete.

Definition bucket_eqb (a b : bucket) : bool :=
  match a, b with
  | Complete, Complete | Critical, Critical | Incomplete, Incomplete => true
  | _, _ => false
  end.

(** The branch the three-way test takes. *)
Definition bucket_of (pct : F.float) : bucket :=
  if fge_int pct 100 then Complete
  else if flt_int pct 50 then Critical
  else Incomplete.

(** What a turn of the loop does with a record, apart from the counters
    it starts from: nothing, one more in a bucket, or an exception. *)
Definition verdict (s : pyval) : result (option bucket) :=
  total_eps <- py_get s "totalEpisodes" (PInt 0) ;;
  owned_eps <- py_get s "episode_count" (PInt 0) ;;
  counted <- has_episodes total_eps ;;
  if counted then
    pct <- percentage owned_eps total_eps ;;
    Ok (Some (bucket_of pct))
  else Ok None.

Definition add_to_bucket (v : option bucket) (d : Snapshot) : Snapshot :=
  match v with
  | None => d
  | Some Complete => incr_complete d
  | Some Critical => incr_critical d
  | Some Incomplete => incr_incomplete d
  end.

Definition in_bucket (b : bucket) (s : pyval) : bool :=
  match verdict s with
  | Ok (Some b') => bucket_eqb b b'
  | _ => false
  end.

(** The number of records of a list the loop puts in a bucket. *)
Definition count_bucket (b : bucket) (l : list pyval) : Z :=
  Z.of_nat (List.length (filter (in_bucket b) l)).

(** Whether the turn of the loop on a record raises nothing. *)
Definition raises_nothing (s : pyval) : bool :=
  match verdict s with
  | Ok _ => true
  | Raise _ => false
  end.

(** The counters of a snapshot and its percentage. *)
Definition same_figures (d d' : Snapshot) : Prop :=
  total d' = total d /\ complete d' = complete d /\
  incomplete d' = incomplete d /\ critical d' = critical d /\
  completion_pct d' = completion_pct d.

Definition is_dict (v : pyval) : bool :=
  match v with
  | PDict _ => true
  | _ => false
  end.

(** A float that is [+0.0] or positive, finite, with an exponent of at
    most [L] and a value of at most [B * 2^g]. *)
Definition bounded_float (B g L : Z) (x : F.float) : Prop :=
  x = S754_zero false \/
  exists m e, x = S754_finite false m e /\ e <= L /\ Zpos m <= B * 2 ^ (g - e).

(** Whether a tenth [k / 10], read as a float, lies between 0.0 and
    100.0. *)
Definition tenth_in_scale (k : Z) : bool :=
  match k with
  | Zpos p =>
      let x := F.div (S754_finite false p 0) (F.raw 10) in
      F.leb F.zero x && F.leb x (F.of_Z 100)
  | _ => true
  end.

(** Whether a character occurs in a string. *)
Fixpoint has_char (c : ascii) (s : string) : bool :=
  match s with
  | EmptyString => false
  | String a rest => Ascii.eqb a c || has_char c rest
  end.

(** The unique ids of entries made by hand for some hosts and ports, and
    of entries made from discoveries of some slugs. *)
Definition unique_ids_of (manual : list (string * Z)) (slugs : list string)
    : list string :=
  map (fun hp => manual_unique_id (fst hp) (snd hp)) manual ++
  map hassio_unique_id slugs.

(** The validation request of the user step. *)
Definition validation_request (input : UserInput) : Request :=
  {| request_timeout := 10;
     request_url := test_connection_url (input_host input) (input_port input) |}.

(** Whether the user step ends on the form: no input yet, or a host that
    does not answer 200. *)
Definition ends_on_form (get : Z -> string -> get_outcome)
    (user_input : option UserInput) : bool :=
  match user_input with
  | None => true
  | Some input => negb (answers_200 (get 10 (request_url (validation_request input))))
  end.

(** The host and port [async_step_hassio] reads from a discovery. *)
Definition discovered_host (const : Const) (info : HassioServiceInfo) : string :=
  match config_host info with
  | Some h => h
  | None => DEFAULT_HOST const
  end.

Definition discovered_port (info : HassioServiceInfo) : Z :=
  match config_port info with
  | Some p => p
  | None => ADDON_PORT
  end.

(** The entry the confirmation of a discovery creates. *)
Definition discovered_entry (const : Const) (info : HassioServiceInfo) : EntryData :=
  {| conf_host := Some (discovered_host const info);
     conf_port := Some (discovered_port info);
     conf_scan_interval := Some (DEFAULT_SCAN_INTERVAL const) |}.

(** The two integers of a record: [episode_count] and [totalEpisodes],
    an absent one being 0. *)
Definition record_counts (s : pyval) : option (Z * Z) :=
  match s with
  | PDict kv =>
      match int_field "episode_count" kv, int_field "totalEpisodes" kv with
      | Some owned, Some total_eps => Some (owned, total_eps)
      | _, _ => None
      end
  | _ => None
  end.

(** The bucket of a record, read on the integers: none without episodes,
    complete when all are owned, critical when less than half are. *)
Definition bucket_by_counts (s : pyval) : option bucket :=
  match record_counts s with
  | Some (owned, total_eps) =>
      if 0 <? total_eps then
        Some (if total_eps <=? owned then Complete
              else if 2 * owned <? total_eps then Critical
              else Incomplete)
      else None
  | None => None
  end.

(** A series record whose [totalEpisodes] has at most 53 bits. *)
Definition plain_record (s : pyval) : bool :=
  match record_counts s with
  | Some (owned, total_eps) =>
      (Z.abs owned <? float_range) && (total_eps <=? 2 ^ 53)
  | None => false
  end.

Definition option_bucket_eqb (a b : option bucket) : bool :=
  match a, b with
  | Some x, Some y => bucket_eqb x y
  | None, None => true
  | _, _ => false
  end.

(** The number of records of a list whose integers put them in a
    bucket. *)
Definition count_by_counts (b : bucket) (l : list pyval) : Z :=
  Z.of_nat (List.length
              (filter (fun s => option_bucket_eqb (bucket_by_counts s) (Some b)) l)).

(** The request of auto-detection for a hostname. *)
Definition detection_request (hostname : string) : Request :=
  {| request_timeout := 3;
     request_url := test_connection_url hostname ADDON_PORT |}.

(** ** Sample data *)

(** Four records: complete, critical, incomplete, and one without
    [totalEpisodes]. *)
Definition example_series : list pyval :=
  [ series_of "Alpha" 10 10; series_of "Beta" 3 10; series_of "Gamma" 6 10;
    PDict [("title", PStr "Delta"); ("episode_count", PInt 4)] ].

Definition example_poll : post_outcome :=
  PostResponse 200 (JsonBody (PList example_series)).

(** The coordinator after one successful poll. *)
Definition cached_coordinator : Coordinator :=
  refresh new_coordinator example_poll.

(** A poll answered with status 500. *)
Definition server_error : post_outcome :=
  PostResponse 500 (JsonBody (PDict [("error", PStr "Internal Server Error")])).

(** Whether the probe of a hostname, on the add-on port, answers 200. *)
Definition answers (probe : string -> Z -> get_outcome) (hostname : string) : bool :=
  answers_200 (probe hostname ADDON_PORT).

(** What the detection loop returns from [hostnames], having probed
    [probed] before: the first hostname that answers, with every hostname
    up to it probed in order, or nothing and all of them probed. *)
Definition first_answer (probe : string -> Z -> get_outcome)
    (hostnames probed : list string)
    (res : option (string * Z) * list string) : Prop :=
  match res with
  | (Some (h, port), seen) =>
      port = ADDON_PORT /\ answers probe h = true /\
      exists before after,
        hostnames = before ++ h :: after /\
        forallb (fun x => negb (answers probe x)) before = true /\
        seen = probed ++ before ++ [h]
  | (None, seen) =>
      forallb (fun x => negb (answers probe x)) hostnames = true /\
      seen = probed ++ hostnames
  end.

(** The integers [lo, lo + 1, ..., lo + n - 1]. *)
Fixpoint Zrange (lo : Z) (n : nat) : list Z :=
  match n with
  | O => []
  | S n' => lo :: Zrange (lo + 1) n'
  end.

(** Whether the float tests on [owned / total_eps * 100] decide as the
    integers do: [>= 100] as [owned >= total_eps], [< 50] as
    [2 * owned < total_eps]. *)
Definition tests_agree (owned total_eps : Z) : bool :=
  let pct := fmul_int (F.div (F.raw owned) (F.raw total_eps)) 100 in
  Bool.eqb (fge_int pct 100) (total_eps <=? owned) &&
  Bool.eqb (flt_int pct 50) (2 * owned <? total_eps).

(** Sample values for the constants of [const.py]. *)
Definition example_const : Const :=
  {| DOMAIN := "series_complete"; DEFAULT_HOST := "localhost";
     DEFAULT_PORT := 3000; DEFAULT_SCAN_INTERVAL := 300 |}.

(** * Properties *)

(** ** Binary64 division does not overflow on operands of similar size *)

Section FloatBounds.

Lemma fexp64_eq (x : Z) : fexp F.prec F.emax x = Z.max (x - 53) (-1074).
Proof. reflexivity. Qed.

Lemma digits2_pos_size (p : positive) : digits2_pos p = Pos.size p.
Proof. induction p; simpl; congruence. Qed.

Lemma Zdigits2_nonneg (z : Z) : 0 <= Zdigits2 z.
Proof. destruct z; simpl; lia. Qed.

Lemma Zdigits2_pos (z : Z) : z <> 0 -> 1 <= Zdigits2 z.
Proof. destruct z; simpl; lia. Qed.

Lemma Zdigits2_upper (z : Z) : 0 <= z -> z < 2 ^ Zdigits2 z.
Proof.
  destruct z as [|p|p]; intros Hz; simpl; try lia.
  rewrite digits2_pos_size.
  pose proof (Pos.size_gt p) as H.
  apply Pos2Z.pos_lt_pos in H. now rewrite Pos2Z.inj_pow in H.
Qed.

Lemma Zdigits2_lower (z : Z) : 0 < z -> 2 ^ (Zdigits2 z - 1) <= z.
Proof.
  destruct z as [|p|p]; intros Hz; unfold Zdigits2; try lia.
  rewrite digits2_pos_size.
  pose proof (Pos.size_le p) as H.
  apply Pos2Z.pos_le_pos in H. rewrite Pos2Z.inj_pow in H.
  replace (Z.pos (Pos.size p)) with (Z.succ (Z.pos (Pos.size p) - 1)) in H by lia.
  rewrite Z.pow_succ_r in H by lia. lia.
Qed.

Lemma Zdigits2_le_of_lt (z n : Z) :
  0 <= z -> 0 <= n -> z < 2 ^ n -> Zdigits2 z <= n.
Proof.
  intros Hz Hn Hlt.
  destruct (Z.eq_dec z 0) as [-> | Hnz]; [assumption|].
  pose proof (Zdigits2_lower z ltac:(lia)) as Hlow.
  destruct (Z_le_gt_dec (Zdigits2 z) n) as [|Hgt]; [assumption|exfalso].
  assert (2 ^ n <= 2 ^ (Zdigits2 z - 1)) by (apply Z.pow_le_mono_r; lia).
  lia.
Qed.

Lemma Zdigits2_succ (z : Z) : 0 <= z -> Zdigits2 (z + 1) <= Zdigits2 z + 1.
Proof.
  intros Hz. pose proof (Zdigits2_nonneg z). pose proof (Zdigits2_upper z Hz).
  apply Zdigits2_le_of_lt; try lia.
  rewrite Z.pow_add_r by lia. lia.
Qed.

Lemma shr_1_div2 (r : shr_record) :
  0 <= shr_m r -> shr_m (shr_1 r) = shr_m r / 2.
Proof.
  destruct r as [m b s]; simpl; intros Hm.
  destruct m as [|[p|p|]|p]; simpl; try lia; try reflexivity.
  - apply Z.div_unique with (r := 1); lia.
  - apply Z.div_unique with (r := 0); lia.
Qed.

Lemma iter_shr_1_div (p : positive) :
  forall r, 0 <= shr_m r ->
    shr_m (iter_pos shr_1 p r) = shr_m r / 2 ^ Zpos p.
Proof.
  assert (Hpow : forall q, 0 < 2 ^ Zpos q) by (intros; apply Z.pow_pos_nonneg; lia).
  induction p as [p IH | p IH |]; intros r Hr; simpl iter_pos.
  - assert (H1 : 0 <= shr_m (shr_1 r)).
    { rewrite shr_1_div2 by assumption. apply Z.div_pos; lia. }
    assert (H2 : 0 <= shr_m (iter_pos shr_1 p (shr_1 r))).
    { rewrite IH by assumption. apply Z.div_pos; [lia | apply Hpow]. }
    rewrite IH, IH, shr_1_div2 by assumption.
    pose proof (Hpow p).
    rewrite !Z.div_div by lia. f_equal.
    replace (Z.pos p~1) with (1 + Z.pos p + Z.pos p) by lia.
    rewrite !Z.pow_add_r by lia. lia.
  - assert (H2 : 0 <= shr_m (iter_pos shr_1 p r)).
    { rewrite IH by assumption. apply Z.div_pos; [lia | apply Hpow]. }
    rewrite IH, IH by assumption.
    pose proof (Hpow p).
    rewrite !Z.div_div by lia. f_equal.
    replace (Z.pos p~0) with (Z.pos p + Z.pos p) by lia.
    rewrite !Z.pow_add_r by lia. lia.
  - now rewrite shr_1_div2.
Qed.

(** After a right shift by [fexp], size and exponent stay bounded. *)
Lemma shr_fexp_bound (m e : Z) (l : location) (B : Z) :
  0 <= m -> Zdigits2 m + e <= B -> e <= B - 53 -> -1021 <= B ->
  let '(mrs, e') := shr_fexp F.prec F.emax m e l in
  0 <= shr_m mrs /\ Zdigits2 (shr_m mrs) + e' <= B /\ e' <= B - 53.
Proof.
  intros Hm Hd He HB. unfold shr_fexp, shr.
  assert (Hrec : shr_m (shr_record_of_loc m l) = m)
    by (destruct l as [|[]]; reflexivity).
  pose proof (fexp64_eq (Zdigits2 m + e)) as Hf.
  destruct (fexp F.prec F.emax (Zdigits2 m + e) - e) as [|p|p] eqn:Hn;
    try (rewrite Hrec; lia).
  rewrite iter_shr_1_div by (rewrite Hrec; assumption). rewrite Hrec.
  assert (Hpow : 0 < 2 ^ Z.pos p) by (apply Z.pow_pos_nonneg; lia).
  split; [apply Z.div_pos; lia|]. split; [|lia].
  pose proof (Zdigits2_nonneg m) as Hdn.
  pose proof (Zdigits2_upper m Hm) as Hup.
  destruct (Z_le_gt_dec (Zdigits2 m) (Z.pos p)) as [Hsmall | Hbig].
  - rewrite Z.div_small; [simpl; lia|].
    split; [assumption|].
    assert (2 ^ Zdigits2 m <= 2 ^ Z.pos p) by (apply Z.pow_le_mono_r; lia).
    lia.
  - assert (Zdigits2 (m / 2 ^ Z.pos p) <= Zdigits2 m - Z.pos p); [|lia].
    apply Zdigits2_le_of_lt; [apply Z.div_pos; lia | lia |].
    apply Z.div_lt_upper_bound; [assumption|].
    rewrite <- Z.pow_add_r by lia.
    now replace (Z.pos p + (Zdigits2 m - Z.pos p)) with (Zdigits2 m) by lia.
Qed.

(** Rounding a significand whose value is below [2^1023] gives no
    infinity. *)
Lemma binary_round_aux_not_inf (s : bool) (m e : Z) (l : location) :
  0 <= m -> Zdigits2 m + e <= 1023 -> e <= 970 ->
  F.is_inf (binary_round_aux F.prec F.emax s m e l) = false.
Proof.
  intros Hm Hd He. unfold binary_round_aux.
  pose proof (shr_fexp_bound m e l 1023 Hm Hd ltac:(lia) ltac:(lia)) as H1.
  destruct (shr_fexp F.prec F.emax m e l) as [mrs' e'].
  destruct H1 as (Hm' & Hd' & He').
  set (mr := round_nearest_even (shr_m mrs') (loc_of_shr_record mrs')).
  assert (Hmr : 0 <= mr /\ Zdigits2 mr <= Zdigits2 (shr_m mrs') + 1).
  { pose proof (Zdigits2_succ (shr_m mrs') Hm').
    unfold mr, round_nearest_even.
    destruct (loc_of_shr_record mrs') as [|[]];
      try destruct (Z.even (shr_m mrs')); lia. }
  destruct Hmr as (Hmr0 & Hmrd).
  pose proof (shr_fexp_bound mr e' loc_Exact 1024 Hmr0 ltac:(lia) ltac:(lia)
                ltac:(lia)) as H2.
  destruct (shr_fexp F.prec F.emax mr e' loc_Exact) as [mrs'' e''].
  destruct H2 as (_ & _ & He'').
  destruct (shr_m mrs''); try reflexivity.
  replace (e'' <=? F.emax - F.prec) with true; [reflexivity|].
  symmetry. apply Z.leb_le. unfold F.emax, F.prec. lia.
Qed.

(** The quotient of the division core has about [d1 - d2 + 1] bits. *)
Lemma SFdiv_core_binary_bound (m1 m2 : positive) :
  let '(q, e', _) := SFdiv_core_binary F.prec F.emax (Zpos m1) 0 (Zpos m2) 0 in
  0 <= q /\ e' <= 0 /\
  Zdigits2 q + e' <= Z.max 0 (Zdigits2 (Zpos m1) - Zdigits2 (Zpos m2) + 1).
Proof.
  unfold SFdiv_core_binary.
  set (d1 := Zdigits2 (Z.pos m1)). set (d2 := Zdigits2 (Z.pos m2)).
  rewrite !Z.add_0_r, Z.sub_0_r.
  pose proof (fexp64_eq (d1 - d2)) as Hf.
  set (e' := Z.min (fexp F.prec F.emax (d1 - d2)) 0).
  assert (He' : e' <= 0) by (unfold e'; lia).
  set (m' := match 0 - e' with
             | Zpos _ => Z.shiftl (Zpos m1) (0 - e')
             | Z0 => Zpos m1
             | Zneg _ => 0
             end).
  assert (Hm' : m' = Zpos m1 * 2 ^ (- e')).
  { unfold m'. destruct (0 - e') as [|p|p] eqn:Hs; try lia.
    - replace (- e') with 0 by lia. lia.
    - rewrite Z.shiftl_mul_pow2 by lia. f_equal. f_equal. lia. }
  pose proof (Z_div_mod m' (Zpos m2) ltac:(lia)) as Hdm.
  unfold Z.div_eucl in Hdm |- *. fold (Z.div_eucl m' (Zpos m2)) in Hdm |- *.
  destruct (Z.div_eucl m' (Z.pos m2)) as [q r]. destruct Hdm as (Hq & Hr).
  assert (Hpow : 0 < 2 ^ (- e')) by (apply Z.pow_pos_nonneg; lia).
  assert (Hq0 : 0 <= q) by nia.
  split; [assumption|]. split; [assumption|].
  destruct (Z.eq_dec q 0) as [-> | Hqnz]; [simpl; lia|].
  pose proof (Zdigits2_upper (Zpos m1) ltac:(lia)) as Hu1. fold d1 in Hu1.
  pose proof (Zdigits2_lower (Zpos m2) ltac:(lia)) as Hl2. fold d2 in Hl2.
  pose proof (Zdigits2_nonneg (Zpos m1)) as Hn1. fold d1 in Hn1.
  assert (Hd2 : 1 <= d2) by (unfold d2; simpl; lia).
  assert (Hlt : q * 2 ^ (d2 - 1) < 2 ^ (d1 - e')).
  { replace (d1 - e') with (d1 + - e') by lia.
    rewrite Z.pow_add_r by lia.
    assert (q * 2 ^ (d2 - 1) <= q * Zpos m2) by (apply Z.mul_le_mono_nonneg_l; lia).
    assert (Zpos m1 * 2 ^ (- e') < 2 ^ d1 * 2 ^ (- e'))
      by (apply Z.mul_lt_mono_pos_r; lia).
    lia. }
  assert (Hexp : d2 - 1 < d1 - e').
  { apply (Z.pow_lt_mono_r_iff 2); [lia | lia |].
    assert (0 < 2 ^ (d2 - 1)) by (apply Z.pow_pos_nonneg; lia). nia. }
  assert (Zdigits2 q <= d1 - e' - (d2 - 1)); [|lia].
  apply Zdigits2_le_of_lt; [assumption | lia |].
  replace (d1 - e') with ((d1 - e' - (d2 - 1)) + (d2 - 1)) in Hlt by lia.
  rewrite Z.pow_add_r in Hlt by lia.
  assert (0 < 2 ^ (d2 - 1)) by (apply Z.pow_pos_nonneg; lia).
  nia.
Qed.

Lemma div_raw_not_inf (a b : Z) :
  b <> 0 -> Zdigits2 a - Zdigits2 b <= 1022 ->
  F.is_inf (F.div (F.raw a) (F.raw b)) = false.
Proof.
  intros Hb Hd.
  assert (Hpos : forall s1 s2 m1 m2,
    Zdigits2 (Zpos m1) - Zdigits2 (Zpos m2) <= 1022 ->
    F.is_inf (F.div (S754_finite s1 m1 0) (S754_finite s2 m2 0)) = false).
  { intros s1 s2 m1 m2 H. unfold F.div, SFdiv.
    pose proof (SFdiv_core_binary_bound m1 m2) as Hc.
    destruct (SFdiv_core_binary F.prec F.emax (Z.pos m1) 0 (Z.pos m2) 0)
      as [[q e'] l].
    destruct Hc as (Hq & He & Hqd).
    apply binary_round_aux_not_inf; lia. }
  destruct a as [|pa|pa], b as [|pb|pb]; try contradiction;
    try reflexivity; apply Hpos; exact Hd.
Qed.

Lemma Zdigits2_ge_of_le (z n : Z) : 2 ^ (n - 1) <= z -> n <= Zdigits2 z.
Proof.
  intros H.
  destruct (Z_le_gt_dec n 0) as [Hn | Hn];
    [pose proof (Zdigits2_nonneg z); lia|].
  assert (Hz : 0 < z).
  { assert (0 < 2 ^ (n - 1)) by (apply Z.pow_pos_nonneg; lia). lia. }
  pose proof (Zdigits2_upper z ltac:(lia)) as Hu.
  pose proof (Zdigits2_nonneg z) as H0.
  assert (n - 1 < Zdigits2 z); [|lia].
  apply (Z.pow_lt_mono_r_iff 2); lia.
Qed.

Lemma Zdigits2_mono (a b : Z) : 0 <= a <= b -> Zdigits2 a <= Zdigits2 b.
Proof.
  intros H. apply Zdigits2_le_of_lt; [lia | apply Zdigits2_nonneg |].
  pose proof (Zdigits2_upper b ltac:(lia)). lia.
Qed.

(** Above the subnormal range, the right shift keeps a significand
    positive. *)
Lemma shr_fexp_pos (m e : Z) (l : location) :
  0 < m -> -1074 < Zdigits2 m + e ->
  let '(mrs, e') := shr_fexp F.prec F.emax m e l in
  0 < shr_m mrs /\ Zdigits2 m + e <= Zdigits2 (shr_m mrs) + e'.
Proof.
  intros Hm Hd. unfold shr_fexp, shr.
  assert (Hrec : shr_m (shr_record_of_loc m l) = m)
    by (destruct l as [|[]]; reflexivity).
  pose proof (fexp64_eq (Zdigits2 m + e)) as Hf.
  destruct (fexp F.prec F.emax (Zdigits2 m + e) - e) as [|p|p] eqn:Hn;
    try (rewrite Hrec; lia).
  rewrite iter_shr_1_div by (rewrite Hrec; lia). rewrite Hrec.
  assert (Hpow : 0 < 2 ^ Z.pos p) by (apply Z.pow_pos_nonneg; lia).
  pose proof (Zdigits2_lower m Hm) as Hlow.
  assert (Hp : Z.pos p <= Zdigits2 m - 1) by lia.
  assert (Hq : 2 ^ (Zdigits2 m - Z.pos p - 1) <= m / 2 ^ Z.pos p).
  { apply Z.div_le_lower_bound; [assumption|].
    rewrite <- Z.pow_add_r by lia.
    now replace (Z.pos p + (Zdigits2 m - Z.pos p - 1)) with (Zdigits2 m - 1)
      by lia. }
  assert (0 < 2 ^ (Zdigits2 m - Z.pos p - 1)) by (apply Z.pow_pos_nonneg; lia).
  split; [lia|].
  pose proof (Zdigits2_ge_of_le (m / 2 ^ Z.pos p) (Zdigits2 m - Z.pos p) Hq).
  lia.
Qed.

Lemma binary_round_aux_not_zero (s : bool) (m e : Z) (l : location) :
  0 < m -> -1074 < Zdigits2 m + e ->
  F.is_zero (binary_round_aux F.prec F.emax s m e l) = false.
Proof.
  intros Hm Hd. unfold binary_round_aux.
  pose proof (shr_fexp_pos m e l Hm Hd) as H1.
  destruct (shr_fexp F.prec F.emax m e l) as [mrs' e'].
  destruct H1 as (Hm' & Hd').
  set (mr := round_nearest_even (shr_m mrs') (loc_of_shr_record mrs')).
  assert (Hmr : shr_m mrs' <= mr).
  { unfold mr, round_nearest_even.
    destruct (loc_of_shr_record mrs') as [|[]];
      try destruct (Z.even (shr_m mrs')); lia. }
  pose proof (Zdigits2_mono (shr_m mrs') mr ltac:(lia)) as Hmono.
  pose proof (shr_fexp_pos mr e' loc_Exact ltac:(lia) ltac:(lia)) as H2.
  destruct (shr_fexp F.prec F.emax mr e' loc_Exact) as [mrs'' e''].
  destruct H2 as (Hm'' & _).
  destruct (shr_m mrs''); try lia.
  now destruct (e'' <=? F.emax - F.prec).
Qed.

(** The float of a non-zero integer is not a zero. *)
Lemma of_Z_not_zero (z : Z) : z <> 0 -> F.is_zero (F.of_Z z) = false.
Proof.
  assert (Hpos : forall s m, F.is_zero (binary_round F.prec F.emax s m 0) = false).
  { intros s m. unfold binary_round, shl_align.
    pose proof (fexp64_eq (Z.pos (digits2_pos m) + 0)) as Hf.
    destruct (fexp F.prec F.emax (Z.pos (digits2_pos m) + 0) - 0) eqn:Hs;
      apply binary_round_aux_not_zero; try lia.
    - simpl. lia.
    - simpl. lia.
    - pose proof (Zdigits2_pos (Z.pos (Pos.iter xO m p)) ltac:(lia)). lia. }
  intros Hz. destruct z; [contradiction | apply Hpos | apply Hpos].
Qed.

End FloatBounds.

(** ** Python arithmetic *)

Lemma Zdigits2_abs_le (z n : Z) : 0 <= n -> Z.abs z < 2 ^ n -> Zdigits2 z <= n.
Proof.
  intros Hn H. destruct z as [|p|p]; simpl in *; try lia.
  - apply (Zdigits2_le_of_lt (Zpos p)); lia.
  - apply (Zdigits2_le_of_lt (Zpos p)); lia.
Qed.

(** [a / b] on integers returns a float when [b] is not 0 and [a] has
    at most 1022 bits more than [b]. *)
Lemma int_truediv_ok (a b : Z) :
  b <> 0 -> Zdigits2 a - Zdigits2 b <= 1022 ->
  int_truediv a b = Ok (F.div (F.raw a) (F.raw b)).
Proof.
  intros Hb Hd. unfold int_truediv.
  destruct (b =? 0) eqn:E; [apply Z.eqb_eq in E; contradiction|].
  now rewrite div_raw_not_inf.
Qed.

Lemma int_truediv_in_range (a b : Z) :
  b <> 0 -> Z.abs a < float_range ->
  int_truediv a b = Ok (F.div (F.raw a) (F.raw b)).
Proof.
  intros Hb Ha. apply int_truediv_ok; [assumption|].
  pose proof (Zdigits2_abs_le a 1023 ltac:(lia) Ha).
  pose proof (Zdigits2_pos b Hb). lia.
Qed.

Lemma int_truediv_le (a b : Z) :
  0 <= a <= b -> 0 < b ->
  int_truediv a b = Ok (F.div (F.raw a) (F.raw b)).
Proof.
  intros Ha Hb. apply int_truediv_ok; [lia|].
  assert (Zdigits2 a <= Zdigits2 b); [|lia].
  apply Zdigits2_le_of_lt; [lia | apply Zdigits2_nonneg |].
  pose proof (Zdigits2_upper b ltac:(lia)). lia.
Qed.

Lemma int_truediv_not_zero_division (a b : Z) :
  b <> 0 -> int_truediv a b <> Raise ZeroDivisionError.
Proof.
  intros Hb. unfold int_truediv.
  destruct (b =? 0) eqn:E; [apply Z.eqb_eq in E; contradiction|].
  destruct (F.is_inf _); discriminate.
Qed.

(** ** The counting loop *)

Lemma extends_refl (d : Snapshot) : extends d d 0.
Proof. unfold extends. repeat split; lia. Qed.

Lemma extends_trans (d1 d2 d3 : Snapshot) (n m : Z) :
  extends d1 d2 n -> extends d2 d3 m -> extends d1 d3 (n + m).
Proof.
  unfold extends. intros (? & ? & ? & ? & ? & ? & ?) (? & ? & ? & ? & ? & ? & ?).
  repeat split; try congruence; lia.
Qed.

Lemma classify_extends (pct : F.float) (d : Snapshot) :
  extends d (classify pct d) 1.
Proof.
  unfold classify.
  destruct (fge_int pct 100); [|destruct (flt_int pct 50)];
    unfold extends, analyzed; simpl; repeat split; lia.
Qed.

(** Whatever the element is, one turn of the loop classifies at most one
    record. *)
Lemma count_series_partial (d d' : Snapshot) (s : pyval) :
  count_series d s = Ok d' -> extends d d' 0 \/ extends d d' 1.
Proof.
  unfold count_series, percentage, bind. intros H.
  destruct (py_get s "totalEpisodes" (PInt 0)) as [tv|]; [|discriminate].
  destruct (py_get s "episode_count" (PInt 0)) as [ov|]; [|discriminate].
  destruct (has_episodes tv) as [[|]|]; try discriminate.
  - destruct (py_truediv ov tv) as [q|]; [|discriminate].
    injection H as <-. right. apply classify_extends.
  - injection H as <-. left. apply extends_refl.
Qed.

Lemma count_all_partial (l : list pyval) :
  forall d d', count_all d l = Ok d' ->
    exists n, 0 <= n <= Z.of_nat (List.length l) /\ extends d d' n.
Proof.
  induction l as [|s rest IH]; intros d d' H; simpl in H.
  - injection H as <-. exists 0. split; [simpl; lia | apply extends_refl].
  - unfold bind in H. destruct (count_series d s) as [d1|] eqn:Hs; [|discriminate].
    destruct (IH d1 d' H) as (n & Hn & Hext).
    apply count_series_partial in Hs.
    rewrite List.length_cons, Nat2Z.inj_succ.
    destruct Hs as [H0 | H1].
    + exists (0 + n). split; [lia | eapply extends_trans; eassumption].
    + exists (1 + n). split; [lia | eapply extends_trans; eassumption].
Qed.

(** On a series record the turn of the loop raises nothing. *)
Lemma count_series_record (d : Snapshot) (s : pyval) :
  is_series_record s = true ->
  count_series d s =
  Ok (if total_episodes_positive s then classify (record_pct s) d else d).
Proof.
  destruct s as [| | | | | |kv]; try discriminate.
  unfold is_series_record, total_episodes_positive, record_pct, int_field,
    count_series, py_get.
  destruct (lookup "totalEpisodes" kv) as [[| |t| | | |]|]; try discriminate;
    destruct (lookup "episode_count" kv) as [[| |owned| | | |]|];
    try discriminate; intros Hr; apply Z.ltb_lt in Hr;
    cbn [bind has_episodes truthy py_gt_int]; unfold has_episodes, truthy, py_gt_int.
  - destruct (Z.eqb_spec t 0) as [-> | Ht]; [reflexivity|]. cbn [negb].
    destruct (0 <? t) eqn:E; cbn [bind]; [|reflexivity].
    unfold percentage, py_truediv. cbn [as_number].
    now rewrite int_truediv_in_range.
  - destruct (Z.eqb_spec t 0) as [-> | Ht]; [reflexivity|]. cbn [negb].
    destruct (0 <? t) eqn:E; cbn [bind]; [|reflexivity].
    unfold percentage, py_truediv. cbn [as_number].
    now rewrite int_truediv_in_range.
  - reflexivity.
  - reflexivity.
Qed.

Lemma count_positive_cons (s : pyval) (l : list pyval) :
  count_positive (s :: l) =
  (if total_episodes_positive s then 1 else 0) + count_positive l.
Proof.
  unfold count_positive. simpl filter.
  destruct (total_episodes_positive s); [|reflexivity].
  rewrite List.length_cons. lia.
Qed.

Lemma count_all_records (l : list pyval) :
  Forall (fun s => is_series_record s = true) l ->
  forall d, exists d',
    count_all d l = Ok d' /\ extends d d' (count_positive l).
Proof.
  induction 1 as [|s rest Hs _ IH]; intros d.
  - exists d. split; [reflexivity | apply extends_refl].
  - simpl count_all. rewrite (count_series_record d s Hs). cbn [bind].
    rewrite count_positive_cons.
    destruct (total_episodes_positive s).
    + destruct (IH (classify (record_pct s) d)) as (d' & Hd' & Hext).
      exists d'. split; [assumption|].
      eapply extends_trans; [apply classify_extends | exact Hext].
    + destruct (IH d) as (d' & Hd' & Hext). exists d'. split; assumption.
Qed.

(** Whatever the records hold, a turn that raises nothing classifies the
    record exactly when its [totalEpisodes] is above 0. *)
Lemma count_series_counts (d d' : Snapshot) (s : pyval) :
  count_series d s = Ok d' ->
  extends d d' (if total_episodes_positive s then 1 else 0).
Proof.
  unfold count_series, percentage.
  destruct s as [| | | | | |kv]; try discriminate.
  unfold py_get, total_episodes_positive.
  assert (Hguard : forall tv g,
    has_episodes tv = Ok g ->
    g = match tv with
        | PInt t => 0 <? t
        | PBool b => b
        | PFloat f => F.gtb f F.zero
        | _ => false
        end).
  { intros tv g. unfold has_episodes.
    destruct tv as [|b|z|f|str|l|kv']; cbn [truthy py_gt_int].
    - intros H. now injection H.
    - destruct b; intros H; now injection H.
    - destruct (Z.eqb_spec z 0) as [-> | Hz]; intros H; now injection H.
    - destruct f as [sg|sg| |sg m e]; intros H; now injection H.
    - destruct (negb (String.eqb str "")); [discriminate|].
      intros H. now injection H.
    - destruct l; [|discriminate]. intros H. now injection H.
    - destruct kv'; [|discriminate]. intros H. now injection H. }
  assert (Hstep : forall tv ov,
    (counted <- has_episodes tv ;;
     if counted
     then pct <- (q <- py_truediv ov tv ;; Ok (fmul_int q 100)) ;;
          Ok (classify pct d)
     else Ok d) = Ok d' ->
    extends d d' (if match tv with
                     | PInt t => 0 <? t
                     | PBool b => b
                     | PFloat f => F.gtb f F.zero
                     | _ => false
                     end then 1 else 0)).
  { intros tv ov. unfold bind.
    destruct (has_episodes tv) as [g|] eqn:Hg; [|discriminate].
    rewrite <- (Hguard tv g Hg). destruct g.
    - destruct (py_truediv ov tv); [|discriminate].
      intros H. injection H as <-. apply classify_extends.
    - intros H. injection H as <-. apply extends_refl. }
  destruct (lookup "totalEpisodes" kv) as [tv|];
    destruct (lookup "episode_count" kv) as [ov|]; cbn [bind]; intros H.
  - apply Hstep in H. destruct tv; exact H.
  - apply Hstep in H. destruct tv; exact H.
  - apply Hstep in H. exact H.
  - apply Hstep in H. exact H.
Qed.

Lemma count_all_counts (l : list pyval) :
  forall d d', count_all d l = Ok d' -> extends d d' (count_positive l).
Proof.
  induction l as [|s rest IH]; intros d d' H; simpl in H.
  - injection H as <-. apply extends_refl.
  - unfold bind in H. destruct (count_series d s) as [d1|] eqn:Hs; [|discriminate].
    rewrite count_positive_cons.
    eapply extends_trans; [apply count_series_counts; exact Hs | now apply IH].
Qed.

(** ** The percentage *)

Lemma set_percentage_partial (d d' : Snapshot) :
  set_percentage d = Ok d' ->
  extends d (set_completion_pct (completion_pct d) d') 0 /\
  completion_pct d' =
    (if 0 <? analyzed d then rounded_percentage (complete d) (analyzed d)
     else completion_pct d).
Proof.
  unfold set_percentage. destruct (0 <? analyzed d) eqn:E.
  - unfold py_truediv, bind. cbn [as_number]. unfold int_truediv.
    destruct (analyzed d =? 0); [discriminate|].
    destruct (F.is_inf _); [discriminate|].
    intros H. injection H as <-. split; [|reflexivity].
    unfold extends, analyzed. simpl. repeat split; lia.
  - intros H. injection H as <-. split; [|reflexivity].
    unfold extends, analyzed. simpl. repeat split; lia.
Qed.

Lemma set_percentage_ok (d : Snapshot) :
  0 <= complete d -> 0 <= incomplete d -> 0 <= critical d ->
  set_percentage d =
  Ok (if 0 <? analyzed d
      then set_completion_pct (rounded_percentage (complete d) (analyzed d)) d
      else d).
Proof.
  intros Hc Hi Hk. unfold set_percentage.
  destruct (0 <? analyzed d) eqn:E; [|reflexivity].
  apply Z.ltb_lt in E. unfold py_truediv. cbn [as_number].
  rewrite int_truediv_le by (unfold analyzed in *; lia). reflexivity.
Qed.

(** ** Division by zero *)

(** Without a guard the model does raise. *)
Example truediv_by_zero :
  py_truediv (PInt 1) (PInt 0) = Raise ZeroDivisionError /\
  py_truediv (PFloat (F.of_Z 1)) (PFloat F.zero) = Raise ZeroDivisionError /\
  py_truediv (PInt 1) (PBool false) = Raise ZeroDivisionError.
Proof. repeat split. Qed.

Lemma float_truediv_not_zero_division (a b : F.float) :
  F.is_zero b = false -> float_truediv a b <> Raise ZeroDivisionError.
Proof. unfold float_truediv. intros ->. discriminate. Qed.

(** Under [total_eps and total_eps > 0] the divisor is not zero. *)
Lemma py_truediv_guarded (owned_eps total_eps : pyval) :
  has_episodes total_eps = Ok true ->
  py_truediv owned_eps total_eps <> Raise ZeroDivisionError.
Proof.
  unfold has_episodes. intros H.
  assert (Hnz : match as_number total_eps with
                | Some (NInt z) => z <> 0
                | Some (NFloat f) => F.is_zero f = false
                | None => True
                end).
  { destruct total_eps as [|b|z|f| | |]; cbn [as_number truthy] in *; trivial.
    - destruct b; [discriminate | discriminate H].
    - destruct (Z.eqb_spec z 0); [discriminate H | assumption].
    - destruct (F.is_zero f); [discriminate H | reflexivity]. }
  unfold py_truediv.
  destruct (as_number owned_eps) as [[x|x]|], (as_number total_eps) as [[y|y]|];
    try discriminate.
  - now apply int_truediv_not_zero_division.
  - unfold int_as_float, bind. destruct (F.is_inf (F.of_Z x)); [discriminate|].
    now apply float_truediv_not_zero_division.
  - unfold int_as_float, bind. destruct (F.is_inf (F.of_Z y)); [discriminate|].
    apply float_truediv_not_zero_division. now apply of_Z_not_zero.
  - now apply float_truediv_not_zero_division.
Qed.

Lemma py_get_raises (s : pyval) (key : string) (default : pyval) (e : exn) :
  py_get s key default = Raise e -> e = AttributeError.
Proof.
  destruct s; simpl; try (intros H; injection H as <-; reflexivity).
  destruct (lookup key kv); discriminate.
Qed.

Lemma has_episodes_raises (total_eps : pyval) (e : exn) :
  has_episodes total_eps = Raise e -> e = TypeError.
Proof.
  unfold has_episodes. destruct (truthy total_eps); [|discriminate].
  destruct total_eps; simpl; try discriminate;
    intros H; injection H as <-; reflexivity.
Qed.

Lemma count_series_no_zero_division (d : Snapshot) (s : pyval) :
  count_series d s <> Raise ZeroDivisionError.
Proof.
  unfold count_series, percentage, bind.
  destruct (py_get s "totalEpisodes" (PInt 0)) as [tv|e] eqn:Ht;
    [|apply py_get_raises in Ht; subst e; discriminate].
  destruct (py_get s "episode_count" (PInt 0)) as [ov|e] eqn:Ho;
    [|apply py_get_raises in Ho; subst e; discriminate].
  destruct (has_episodes tv) as [[|]|e] eqn:Hg;
    [| discriminate | apply has_episodes_raises in Hg; subst e; discriminate].
  pose proof (py_truediv_guarded ov tv Hg).
  destruct (py_truediv ov tv) as [q|e]; [discriminate | congruence].
Qed.

Lemma count_all_no_zero_division (l : list pyval) :
  forall d, count_all d l <> Raise ZeroDivisionError.
Proof.
  induction l as [|s rest IH]; intros d; simpl; [discriminate|].
  pose proof (count_series_no_zero_division d s).
  unfold bind. destruct (count_series d s) as [d1|e]; [apply IH | congruence].
Qed.

Lemma set_percentage_no_zero_division (d : Snapshot) :
  set_percentage d <> Raise ZeroDivisionError.
Proof.
  unfold set_percentage. destruct (0 <? analyzed d) eqn:E; [|discriminate].
  apply Z.ltb_lt in E. unfold py_truediv, bind. cbn [as_number].
  pose proof (int_truediv_not_zero_division (complete d) (analyzed d) ltac:(lia)).
  destruct (int_truediv (complete d) (analyzed d)); [discriminate | congruence].
Qed.

(** ** The update *)

Lemma initial_data_inv : snapshot_inv initial_data.
Proof. unfold snapshot_inv, analyzed. simpl. repeat split; lia. Qed.

Lemma process_body_partial (v : pyval) (d : Snapshot) :
  process_body v = Ok d -> series d = as_series_list v /\ snapshot_inv d.
Proof.
  unfold process_body, bind.
  destruct (count_all _ _) as [d1|] eqn:Hloop; [|discriminate].
  intros Hpct.
  apply count_all_partial in Hloop. destruct Hloop as (n & Hn & Hext).
  apply set_percentage_partial in Hpct. destruct Hpct as (Hext' & Hp).
  unfold extends, analyzed in *. simpl in Hext, Hext'.
  destruct Hext as (Ht & Hs & Hc & ? & ? & ? & Ha).
  destruct Hext' as (Ht' & Hs' & _ & ? & ? & ? & Ha').
  split; [congruence|].
  unfold snapshot_inv, analyzed. rewrite Hp, Hc, Hs', Hs, Ht', Ht. simpl.
  replace (complete d) with (complete d1) by lia.
  replace (complete d1 + incomplete d + critical d)
    with (complete d1 + incomplete d1 + critical d1) by lia.
  repeat split; try lia.
Qed.

Lemma async_update_data_partial (r : post_outcome) (d : Snapshot) :
  async_update_data r = Ok d -> snapshot_inv d.
Proof.
  destruct r as [| |status body]; simpl; try discriminate.
  destruct (status =? 200).
  - destruct body as [v| | |]; try discriminate.
    intros H. now apply process_body_partial in H.
  - intros H. injection H as <-. apply initial_data_inv.
Qed.

Lemma async_update_data_counts (l : list pyval) (d : Snapshot) :
  async_update_data (PostResponse 200 (JsonBody (PList l))) = Ok d ->
  analyzed d = count_positive l.
Proof.
  cbn [async_update_data Z.eqb Pos.eqb]. unfold process_body, bind.
  cbn [as_series_list].
  destruct (count_all _ _) as [d1|] eqn:Hloop; [|discriminate].
  intros Hpct.
  apply count_all_counts in Hloop.
  apply set_percentage_partial in Hpct. destruct Hpct as (Hext & _).
  unfold extends, analyzed in *. simpl in Hloop, Hext. lia.
Qed.

Lemma async_update_data_records (l : list pyval) :
  Forall (fun s => is_series_record s = true) l ->
  exists d,
    async_update_data (PostResponse 200 (JsonBody (PList l))) = Ok d /\
    series d = l /\ analyzed d = count_positive l.
Proof.
  intros Hl. cbn [async_update_data Z.eqb Pos.eqb]. unfold process_body.
  cbn [as_series_list].
  destruct (count_all_records l Hl (set_series l initial_data))
    as (d1 & Hloop & Hext).
  rewrite Hloop. cbn [bind].
  unfold extends, analyzed in Hext. simpl in Hext.
  destruct Hext as (Ht & Hs & Hc & ? & ? & ? & Ha).
  rewrite set_percentage_ok by lia.
  eexists. split; [reflexivity|].
  unfold analyzed in *.
  destruct (0 <? complete d1 + incomplete d1 + critical d1); simpl;
    split; (assumption || lia).
Qed.

Lemma async_update_data_no_zero_division (r : post_outcome) :
  async_update_data r <> Raise ZeroDivisionError.
Proof.
  destruct r as [| |status body]; simpl; try discriminate.
  destruct (status =? 200); [|discriminate].
  destruct body as [v| | |]; try discriminate.
  unfold process_body, bind.
  pose proof (count_all_no_zero_division (as_series_list v)
                (set_series (as_series_list v) initial_data)).
  destruct (count_all _ _) as [d1|e]; [|congruence].
  apply set_percentage_no_zero_division.
Qed.

(** ** The cached snapshot *)

Lemma refresh_data (c : Coordinator) (r : post_outcome) (d : Snapshot) :
  data (refresh c r) = Some d ->
  data c = Some d \/ async_update_data r = Ok d.
Proof.
  unfold refresh. destruct (async_update_data r) as [d'|e]; simpl.
  - intros H. injection H as <-. now right.
  - now left.
Qed.

Lemma run_data (ticks : list post_outcome) :
  forall c d, data (run c ticks) = Some d ->
    data c = Some d \/ exists r, In r ticks /\ async_update_data r = Ok d.
Proof.
  unfold run.
  induction ticks as [|r rest IH]; intros c d H; simpl in H; [now left|].
  destruct (IH _ _ H) as [Hc | (r' & Hin & Hr')].
  - apply refresh_data in Hc. destruct Hc as [Hc | Hc]; [now left|].
    right. exists r. split; [now left | assumption].
  - right. exists r'. split; [now right | assumption].
Qed.

Lemma run_all_failed (ticks : list post_outcome) :
  Forall (fun r => exists e, async_update_data r = Raise e) ticks ->
  forall c, data (run c ticks) = data c.
Proof.
  unfold run. induction 1 as [|r rest (e & He) _ IH]; intros c; simpl.
  - reflexivity.
  - rewrite IH. unfold refresh. now rewrite He.
Qed.

(** * The claims *)

(** ** C1: failed polls *)

(** C1, as stated, fails on a non-200 answer: the poll answered with
    status 500 raises nothing, returns the initial all-zero dict, and that
    dict replaces the cached snapshot of four series; as a first poll it
    gives the coordinator a snapshot. *)
Lemma C1_non_200_replaces_snapshot :
  non_200 server_error = true /\
  async_update_data server_error = Ok initial_data /\
  ~ (exists why, async_update_data server_error = Raise (UpdateFailed why)) /\
  data (refresh cached_coordinator server_error) = Some initial_data /\
  data (refresh cached_coordinator server_error) <> data cached_coordinator /\
  data (refresh new_coordinator server_error) <> data new_coordinator.
Proof.
  repeat split.
  - intros (why & H). discriminate H.
  - intros H. vm_compute in H. discriminate H.
  - intros H. vm_compute in H. discriminate H.
Qed.

(** C1 (amended): when the POST, or the reading of its body, raises a
    transport or timeout error, the update raises UpdateFailed, the
    refresh is marked failed and the cached snapshot stays as it was.  A
    non-200 status raises nothing: the update returns the initial all-zero
    dict with an empty series list, and the refresh publishes it. *)
Theorem C1_transport_failure_keeps_snapshot (c : Coordinator) (r : post_outcome) :
  (transport_failure r = true ->
     (exists why, async_update_data r = Raise (UpdateFailed why)) /\
     data (refresh c r) = data c /\
     last_update_success (refresh c r) = false) /\
  (non_200 r = true ->
     async_update_data r = Ok initial_data /\
     data (refresh c r) = Some initial_data).
Proof.
  split.
  - intros H.
    assert (Hf : exists why, async_update_data r = Raise (UpdateFailed why)).
    { destruct r as [| |status body]; simpl in *.
      - now exists ErrorCommunicating.
      - now exists TimeoutCommunicating.
      - destruct (status =? 200); [|discriminate].
        destruct body; try discriminate.
        + now exists ErrorCommunicating.
        + now exists TimeoutCommunicating. }
    split; [assumption|]. destruct Hf as (why & Hf).
    unfold refresh. rewrite Hf. now split.
  - intros H. destruct r as [| |status body]; simpl in H; try discriminate.
    assert (Hu : async_update_data (PostResponse status body) = Ok initial_data).
    { simpl. now destruct (status =? 200). }
    split; [assumption|]. unfold refresh. now rewrite Hu.
Qed.

Lemma C1_transport_failure_keeps_snapshot_witness :
  transport_failure PostTimeout = true /\
  non_200 server_error = true /\
  data (refresh cached_coordinator PostTimeout) = data cached_coordinator /\
  data (refresh cached_coordinator server_error) = Some initial_data.
Proof.
  split; [reflexivity|]. split; [reflexivity|].
  split.
  - apply (proj1 (C1_transport_failure_keeps_snapshot cached_coordinator PostTimeout)).
    reflexivity.
  - apply (proj2 (C1_transport_failure_keeps_snapshot cached_coordinator server_error)).
    reflexivity.
Defined.

(** ** C2: the breakdown counts the records with episodes *)

(** C2: for every list of series records answered with status 200 the
    update returns a snapshot with
    [complete + incomplete + critical] equal to the number of records whose
    [totalEpisodes] is present and [> 0]; a record whose [totalEpisodes] is
    absent or [<= 0] leaves the three counters as they are.  The equation
    holds of every snapshot returned for a list, whatever its elements. *)
Theorem C2_breakdown_counts_positive_totals (l : list pyval) :
  (Forall (fun s => is_series_record s = true) l ->
   (exists d,
      async_update_data (PostResponse 200 (JsonBody (PList l))) = Ok d /\
      complete d + incomplete d + critical d = count_positive l) /\
   (forall s d0, In s l -> total_episodes_positive s = false ->
      count_series d0 s = Ok d0)) /\
  (forall d,
     async_update_data (PostResponse 200 (JsonBody (PList l))) = Ok d ->
     complete d + incomplete d + critical d = count_positive l).
Proof.
  split; [intros Hl; split|].
  - destruct (async_update_data_records l Hl) as (d & Hd & _ & Ha).
    exists d. split; assumption.
  - intros s d0 Hin Hneg.
    rewrite Forall_forall in Hl.
    rewrite (count_series_record d0 s (Hl s Hin)). now rewrite Hneg.
  - apply async_update_data_counts.
Qed.

Lemma C2_breakdown_counts_positive_totals_witness :
  exists d, async_update_data example_poll = Ok d /\
            complete d + incomplete d + critical d = 3.
Proof.
  assert (Hl : Forall (fun s => is_series_record s = true) example_series)
    by (repeat constructor).
  exact (proj1 (proj1 (C2_breakdown_counts_positive_totals example_series) Hl)).
Defined.

(** ** C3: the three-way classification *)

(** C3: a record with integer fields and [totalEpisodes > 0] is classified
    on [pct = (episode_count / totalEpisodes) * 100], computed in floats:
    [pct >= 100] adds one to [complete], otherwise [pct < 50] adds one to
    [critical], otherwise one is added to [incomplete]; the two other
    counters, [total], [completion_pct] and [series] stay as they are.
    With 10 of 10 the record is complete, with 3 of 10 critical, with 6 of
    10 incomplete. *)
Theorem C3_classification_by_ratio :
  (forall (kv : list (string * pyval)) (owned total_eps : Z) (d : Snapshot),
     lookup "totalEpisodes" kv = Some (PInt total_eps) ->
     lookup "episode_count" kv = Some (PInt owned) ->
     0 < total_eps -> Z.abs owned < float_range ->
     exists pct d',
       percentage (PInt owned) (PInt total_eps) = Ok pct /\
       pct = fmul_int (F.div (F.raw owned) (F.raw total_eps)) 100 /\
       count_series d (PDict kv) = Ok d' /\
       d' = (if fge_int pct 100 then incr_complete d
             else if flt_int pct 50 then incr_critical d
             else incr_incomplete d) /\
       total d' = total d /\ series d' = series d /\
       completion_pct d' = completion_pct d /\
       (if fge_int pct 100
        then complete d' = complete d + 1 /\
             incomplete d' = incomplete d /\ critical d' = critical d
        else if flt_int pct 50
        then complete d' = complete d /\
             incomplete d' = incomplete d /\ critical d' = critical d + 1
        else complete d' = complete d /\
             incomplete d' = incomplete d + 1 /\ critical d' = critical d)) /\
  (forall d, exists d',
     count_series d (series_of "s" 10 10) = Ok d' /\
     complete d' = complete d + 1 /\
     incomplete d' = incomplete d /\ critical d' = critical d) /\
  (forall d, exists d',
     count_series d (series_of "s" 3 10) = Ok d' /\
     complete d' = complete d /\
     incomplete d' = incomplete d /\ critical d' = critical d + 1) /\
  (forall d, exists d',
     count_series d (series_of "s" 6 10) = Ok d' /\
     complete d' = complete d /\
     incomplete d' = incomplete d + 1 /\ critical d' = critical d).
Proof.
  split; [|split; [|split]; intros d; eexists; repeat split].
  intros kv owned total_eps d Ht Ho Hpos Hrange.
  exists (fmul_int (F.div (F.raw owned) (F.raw total_eps)) 100).
  assert (Hp : percentage (PInt owned) (PInt total_eps) =
               Ok (fmul_int (F.div (F.raw owned) (F.raw total_eps)) 100)).
  { unfold percentage, py_truediv. cbn [as_number].
    now rewrite int_truediv_in_range by lia. }
  eexists. split; [assumption|]. split; [reflexivity|].
  split.
  { unfold count_series, py_get. rewrite Ht, Ho. cbn [bind].
    unfold has_episodes, truthy, py_gt_int.
    destruct (Z.eqb_spec total_eps 0); [lia|]. cbn [negb].
    apply Z.ltb_lt in Hpos. rewrite Hpos. cbn [bind].
    rewrite Hp. reflexivity. }
  unfold classify.
  destruct (fge_int _ 100); [|destruct (flt_int _ 50)];
    repeat split.
Qed.

Lemma C3_classification_by_ratio_witness :
  exists d',
    count_series initial_data (series_of "Epsilon" 7 8) = Ok d' /\
    complete d' = 0 /\ incomplete d' = 1 /\ critical d' = 0.
Proof.
  destruct (proj1 C3_classification_by_ratio
              [("title", PStr "Epsilon"); ("episode_count", PInt 7);
               ("totalEpisodes", PInt 8)] 7 8 initial_data
              eq_refl eq_refl eq_refl eq_refl)
    as (pct & d' & _ & Hpct & Hd' & _ & _ & _ & _ & Hc).
  exists d'. split; [exact Hd'|].
  rewrite Hpct in Hc. vm_compute in Hc. exact Hc.
Defined.

(** On small counts the rounding of the floats never moves a ratio across
    100 or 50: for up to 120 episodes, of which up to 150 are owned, the
    two tests decide as the exact ratio does. *)
Example tests_agree_small :
  forallb (fun total_eps =>
             forallb (fun owned => tests_agree owned total_eps) (Zrange 0 151))
          (Zrange 1 120) = true.
Proof. vm_compute. reflexivity. Qed.

(** ** C4: the completion percentage *)

(** The rounding of CPython on a few quotients: 1 of 3 gives 33.3, 2 of 3
    gives 66.7, 5 of 16 gives 31.2 (31.25 is a tie, rounded to even), and
    all of them gives 100.0. *)
Example rounded_percentage_values :
  rounded_percentage 1 3 = F.div (F.raw 333) (F.raw 10) /\
  rounded_percentage 2 3 = F.div (F.raw 667) (F.raw 10) /\
  rounded_percentage 5 16 = F.div (F.raw 312) (F.raw 10) /\
  rounded_percentage 7 7 = F.of_Z 100 /\
  rounded_percentage 0 7 = F.zero.
Proof. repeat split; vm_compute; reflexivity. Qed.

(** C4: in every snapshot the update returns, [completion_pct] is
    [round(complete / (complete + incomplete + critical) * 100, 1)] when at
    least one record was classified and [0.0] when none was; the empty
    list gives [0.0]. *)
Theorem C4_completion_pct (r : post_outcome) (d : Snapshot) :
  async_update_data r = Ok d ->
  0 <= analyzed d /\
  (0 < analyzed d ->
     completion_pct d = rounded_percentage (complete d) (analyzed d)) /\
  (analyzed d = 0 -> completion_pct d = F.zero) /\
  (exists d0,
     async_update_data (PostResponse 200 (JsonBody (PList []))) = Ok d0 /\
     completion_pct d0 = F.zero).
Proof.
  intros H. apply async_update_data_partial in H.
  destruct H as (_ & Hc & Hi & Hk & _ & Hp).
  unfold analyzed in *. split; [lia|]. split; [|split].
  - intros Hpos. apply Z.ltb_lt in Hpos. now rewrite Hpos in Hp.
  - intros Hz. now rewrite Hz in Hp.
  - exists initial_data. split; reflexivity.
Qed.

Lemma C4_completion_pct_witness :
  exists d,
    async_update_data example_poll = Ok d /\
    analyzed d = 3 /\
    completion_pct d = F.div (F.raw 333) (F.raw 10).
Proof.
  eexists. split; [vm_compute; reflexivity|]. split; [reflexivity|].
  refine (proj1 (proj2 (C4_completion_pct example_poll _ _)) _).
  - vm_compute. reflexivity.
  - reflexivity.
Defined.

(** ** C5: the breakdown never exceeds the total *)

(** C5: every snapshot the coordinator holds after any sequence of polls
    has [complete + incomplete + critical <= total], with [total] the
    length of its series list; on a list of series records [total] counts
    all of them and the breakdown those with [totalEpisodes > 0]. *)
Theorem C5_breakdown_le_total :
  (forall (ticks : list post_outcome) (d : Snapshot),
     data (run new_coordinator ticks) = Some d ->
     complete d + incomplete d + critical d <= total d /\
     total d = Z.of_nat (List.length (series d))) /\
  (forall l : list pyval,
     Forall (fun s => is_series_record s = true) l ->
     exists d,
       async_update_data (PostResponse 200 (JsonBody (PList l))) = Ok d /\
       total d = Z.of_nat (List.length l) /\
       complete d + incomplete d + critical d = count_positive l).
Proof.
  split.
  - intros ticks d H. apply run_data in H.
    destruct H as [H | (r & _ & H)]; [discriminate H|].
    apply async_update_data_partial in H.
    destruct H as (Ht & _ & _ & _ & Ha & _). now split.
  - intros l Hl.
    destruct (async_update_data_records l Hl) as (d & Hd & Hs & Ha).
    exists d. split; [assumption|].
    pose proof (async_update_data_partial _ _ Hd) as (Ht & _).
    split; [congruence | assumption].
Qed.

Lemma C5_breakdown_le_total_witness :
  exists d,
    data (run new_coordinator [PostTimeout; example_poll; PostClientError])
      = Some d /\
    complete d + incomplete d + critical d <= total d /\
    total d = 4.
Proof.
  eexists. split; [vm_compute; reflexivity|].
  refine (proj1 C5_breakdown_le_total
            [PostTimeout; example_poll; PostClientError] _ _).
  vm_compute. reflexivity.
Defined.

(** ** C6: auto-detection *)

Section DetectFacts.

Variable probe : string -> Z -> get_outcome.

Lemma first_answer_skip (h : string) (rest probed : list string)
    (res : option (string * Z) * list string) :
  answers probe h = false ->
  first_answer probe rest (probed ++ [h]) res ->
  first_answer probe (h :: rest) probed res.
Proof.
  intros Hno. destruct res as [[[h' port]|] seen]; simpl.
  - intros (Hp & Ha & before & after & Heq & Hall & Hseen).
    split; [assumption|]. split; [assumption|].
    exists (h :: before), after. simpl. rewrite Hno, Hall, Heq, Hseen.
    repeat split. now rewrite <- !app_assoc.
  - intros (Hall & Hseen). rewrite Hno, Hall, Hseen.
    split; [reflexivity|]. now rewrite <- app_assoc.
Qed.

Lemma detect_from_first (hostnames : list string) :
  forall probed,
    first_answer probe hostnames probed (detect_from probe hostnames probed).
Proof.
  induction hostnames as [|h rest IH]; intros probed; simpl.
  - split; [reflexivity | now rewrite app_nil_r].
  - destruct (probe h ADDON_PORT) as [| |status] eqn:Hprobe.
    + apply first_answer_skip; [|apply IH].
      unfold answers. now rewrite Hprobe.
    + apply first_answer_skip; [|apply IH].
      unfold answers. now rewrite Hprobe.
    + destruct (status =? 200) eqn:Hst.
      * simpl. split; [reflexivity|].
        split; [unfold answers; now rewrite Hprobe|].
        exists [], rest. repeat split.
      * apply first_answer_skip; [|apply IH].
        unfold answers. now rewrite Hprobe.
Qed.

End DetectFacts.

(** C6: auto-detection probes the three fixed hostnames in their order, on
    the add-on port, and returns the first one whose test-connection
    request answers with status 200; hostnames that raise a client error,
    time out or answer with another status are passed over, and none
    after the first answer is probed.  It returns [None] when no hostname
    answers 200. *)
Theorem C6_detect_first_answer (probe : string -> Z -> get_outcome) :
  FALLBACK_HOSTNAMES =
    ["e81ba94f-series-complete-plex"; "local-series-complete-plex";
     "series-complete-plex"] /\
  ADDON_PORT = 3000 /\
  match detect_app probe with
  | (Some (h, port), seen) =>
      port = ADDON_PORT /\ answers_200 (probe h ADDON_PORT) = true /\
      exists before after,
        FALLBACK_HOSTNAMES = before ++ h :: after /\
        forallb (fun x => negb (answers_200 (probe x ADDON_PORT))) before = true /\
        seen = before ++ [h]
  | (None, seen) =>
      forallb (fun x => negb (answers_200 (probe x ADDON_PORT)))
        FALLBACK_HOSTNAMES = true /\
      seen = FALLBACK_HOSTNAMES
  end.
Proof.
  split; [reflexivity|]. split; [reflexivity|].
  exact (detect_from_first probe FALLBACK_HOSTNAMES []).
Qed.

(** A network where the first hostname times out, the second answers 503
    and the third answers 200. *)
Example detect_app_third :
  detect_app (fun hostname _ =>
                if String.eqb hostname "series-complete-plex" then GetResponse 200
                else if String.eqb hostname "local-series-complete-plex"
                     then GetResponse 503
                     else GetTimeout)
  = (Some ("series-complete-plex", 3000), FALLBACK_HOSTNAMES).
Proof. reflexivity. Qed.

Example detect_app_first_only :
  detect_app (fun _ _ => GetResponse 200)
  = (Some ("e81ba94f-series-complete-plex", 3000),
     ["e81ba94f-series-complete-plex"]).
Proof. reflexivity. Qed.

Example detect_app_none :
  detect_app (fun _ _ => GetClientError) = (None, FALLBACK_HOSTNAMES).
Proof. reflexivity. Qed.

(** ** C7: the sensors *)

(** C7: while the coordinator holds no snapshot, which is the case until
    a poll succeeds, each of the five sensors has the value [None]; once
    it holds one, the five values are its [total], [complete],
    [incomplete], [critical] and [completion_pct]; in both cases the
    coordinator is left as it was. *)
Theorem C7_sensors_project_snapshot :
  List.length SENSORS = 5%nat /\
  (forall (c : Coordinator) (description : SeriesCompleteSensorDescription),
     data c = None -> native_value description c = (PNone, c)) /\
  (forall ticks : list post_outcome,
     Forall (fun r => exists e, async_update_data r = Raise e) ticks ->
     data (run new_coordinator ticks) = None) /\
  (forall (c : Coordinator) (d : Snapshot),
     data c = Some d ->
     map (fun description => native_value description c) SENSORS =
     [ (PInt (total d), c); (PInt (complete d), c); (PInt (incomplete d), c);
       (PInt (critical d), c); (PFloat (completion_pct d), c) ]).
Proof.
  split; [reflexivity|]. split; [|split].
  - intros c description H. unfold native_value. now rewrite H.
  - intros ticks H. now rewrite run_all_failed.
  - intros c d H. unfold SENSORS, native_value. simpl map. now rewrite H.
Qed.

Lemma C7_sensors_project_snapshot_witness :
  native_value completion_sensor new_coordinator = (PNone, new_coordinator) /\
  data (run new_coordinator [PostTimeout; PostClientError]) = None /\
  exists d,
    data cached_coordinator = Some d /\
    total d = 4 /\
    map (fun description => native_value description cached_coordinator) SENSORS
    = [ (PInt (total d), cached_coordinator);
        (PInt (complete d), cached_coordinator);
        (PInt (incomplete d), cached_coordinator);
        (PInt (critical d), cached_coordinator);
        (PFloat (completion_pct d), cached_coordinator) ].
Proof.
  split; [|split].
  - apply (proj1 (proj2 C7_sensors_project_snapshot)). reflexivity.
  - apply (proj1 (proj2 (proj2 C7_sensors_project_snapshot))).
    repeat constructor.
    + now exists (UpdateFailed TimeoutCommunicating).
    + now exists (UpdateFailed ErrorCommunicating).
  - eexists. split; [vm_compute; reflexivity|]. split; [reflexivity|].
    apply (proj2 (proj2 (proj2 C7_sensors_project_snapshot))).
    vm_compute. reflexivity.
Defined.

(** ** C8: missing fields *)

(** C8: a missing [totalEpisodes] or [episode_count] reads as 0.  A
    record without [totalEpisodes] leaves the three counters as they are
    and is counted in [total]; a record whose [totalEpisodes] passes the
    test [> 0] and which has no [episode_count] is classified critical,
    its ratio being 0: [critical] grows by one and the two other counters
    stay as they are. *)
Theorem C8_missing_fields_read_as_zero :
  (forall (kv : list (string * pyval)) (d : Snapshot),
     lookup "totalEpisodes" kv = None ->
     count_series d (PDict kv) = Ok d) /\
  (forall (kv : list (string * pyval)) (total_eps : pyval) (d : Snapshot),
     lookup "totalEpisodes" kv = Some total_eps ->
     has_episodes total_eps = Ok true ->
     lookup "episode_count" kv = None ->
     percentage (PInt 0) total_eps = Ok F.zero /\
     exists d',
       count_series d (PDict kv) = Ok d' /\
       d' = incr_critical d /\
       critical d' = critical d + 1 /\
       complete d' = complete d /\ incomplete d' = incomplete d /\
       total d' = total d /\ series d' = series d /\
       completion_pct d' = completion_pct d) /\
  (forall kv : list (string * pyval),
     lookup "totalEpisodes" kv = None ->
     exists d,
       async_update_data (PostResponse 200 (JsonBody (PList [PDict kv]))) = Ok d /\
       total d = 1 /\ complete d = 0 /\ incomplete d = 0 /\ critical d = 0) /\
  (forall (kv : list (string * pyval)) (total_eps : pyval),
     lookup "totalEpisodes" kv = Some total_eps ->
     has_episodes total_eps = Ok true ->
     lookup "episode_count" kv = None ->
     exists d,
       async_update_data (PostResponse 200 (JsonBody (PList [PDict kv]))) = Ok d /\
       total d = 1 /\ complete d = 0 /\ incomplete d = 0 /\ critical d = 1).
Proof.
  assert (Hpct : forall total_eps,
            has_episodes total_eps = Ok true ->
            percentage (PInt 0) total_eps = Ok F.zero).
  { intros total_eps Hg.
    unfold has_episodes in Hg. unfold percentage, py_truediv.
    destruct (truthy total_eps) eqn:Htr; [|discriminate Hg].
    destruct total_eps as [|b|z|f| | |]; cbn [py_gt_int as_number truthy] in *;
      try discriminate Hg.
    - now subst b.
    - destruct z as [|p|p]; try discriminate Hg. reflexivity.
    - destruct f as [s|[|]| |[|] m e];
        try (vm_compute in Hg; discriminate Hg); reflexivity. }
  assert (Hstep : forall kv total_eps d,
            lookup "totalEpisodes" kv = Some total_eps ->
            has_episodes total_eps = Ok true ->
            lookup "episode_count" kv = None ->
            count_series d (PDict kv) = Ok (incr_critical d)).
  { intros kv total_eps d Ht Hg Ho.
    unfold count_series, py_get. rewrite Ht, Ho. cbn [bind].
    rewrite Hg. cbn [bind]. rewrite (Hpct _ Hg). reflexivity. }
  split; [|split; [|split]].
  - intros kv d Ht. unfold count_series, py_get. rewrite Ht.
    destruct (lookup "episode_count" kv); reflexivity.
  - intros kv total_eps d Ht Hg Ho.
    split; [now apply Hpct|].
    exists (incr_critical d). split; [now apply (Hstep kv total_eps)|].
    repeat split.
  - intros kv Ht. exists (set_series [PDict kv] initial_data).
    cbn [async_update_data Z.eqb Pos.eqb]. unfold process_body.
    cbn [as_series_list count_all]. unfold count_series, py_get. rewrite Ht.
    destruct (lookup "episode_count" kv); repeat split.
  - intros kv total_eps Ht Hg Ho.
    cbn [async_update_data Z.eqb Pos.eqb]. unfold process_body.
    cbn [as_series_list count_all].
    rewrite (Hstep kv total_eps _ Ht Hg Ho). cbn [bind].
    eexists. split; [reflexivity|]. repeat split.
Qed.

Lemma C8_missing_fields_read_as_zero_witness :
  count_series initial_data (PDict [("title", PStr "Delta")]) = Ok initial_data /\
  exists d',
    count_series initial_data
      (PDict [("title", PStr "Zeta"); ("totalEpisodes", PInt 12)]) = Ok d' /\
    critical d' = 1 /\ complete d' = 0 /\ incomplete d' = 0.
Proof.
  split.
  - apply (proj1 C8_missing_fields_read_as_zero). reflexivity.
  - destruct (proj1 (proj2 C8_missing_fields_read_as_zero)
                [("title", PStr "Zeta"); ("totalEpisodes", PInt 12)] (PInt 12)
                initial_data eq_refl eq_refl eq_refl)
      as (_ & d' & Hd' & _ & Hk & Hc & Hi & _).
    exists d'. repeat split; assumption.
Defined.

(** ** C9: a body that is not a list *)

(** C9: when the answer has status 200 and its JSON body is not a list,
    the update raises nothing and returns the all-zero snapshot with an
    empty series list, which replaces whatever the coordinator held. *)
Theorem C9_non_list_body (v : pyval) (c : Coordinator) :
  is_list v = false ->
  async_update_data (PostResponse 200 (JsonBody v)) =
    Ok {| total := 0; complete := 0; incomplete := 0; critical := 0;
          completion_pct := S754_zero false; series := [] |} /\
  data (refresh c (PostResponse 200 (JsonBody v))) = Some initial_data.
Proof.
  intros Hv.
  assert (H : async_update_data (PostResponse 200 (JsonBody v)) = Ok initial_data)
    by (destruct v; try discriminate Hv; reflexivity).
  split; [exact H|]. unfold refresh. now rewrite H.
Qed.

Lemma C9_non_list_body_witness :
  data (refresh cached_coordinator
          (PostResponse 200 (JsonBody (PDict [("series", PList example_series)]))))
  = Some initial_data.
Proof.
  apply (C9_non_list_body (PDict [("series", PList example_series)])
           cached_coordinator).
  reflexivity.
Defined.

(** ** C10: no division by zero *)

(** C10: the update never raises ZeroDivisionError: the division of a
    turn of the loop is reached only when [totalEpisodes] passed the test
    [> 0], and the division by the classified count only when that count
    is [> 0]. *)
Theorem C10_no_division_by_zero :
  (forall r : post_outcome, async_update_data r <> Raise ZeroDivisionError) /\
  (forall (d : Snapshot) (s : pyval),
     count_series d s <> Raise ZeroDivisionError) /\
  (forall d : Snapshot, set_percentage d <> Raise ZeroDivisionError).
Proof.
  split; [|split].
  - apply async_update_data_no_zero_division.
  - apply count_series_no_zero_division.
  - apply set_percentage_no_zero_division.
Qed.

Lemma C10_no_division_by_zero_witness :
  async_update_data
    (PostResponse 200
       (JsonBody (PList [series_of "Eta" 5 0; series_of "Theta" 0 0;
                         PDict [("totalEpisodes", PFloat F.zero)]])))
  <> Raise ZeroDivisionError.
Proof. apply (proj1 C10_no_division_by_zero). Defined.

(** * Further properties of the update *)

(** ** Which exceptions a poll raises *)

Lemma py_truediv_raises (a b : pyval) (e : exn) :
  py_truediv a b = Raise e ->
  e = TypeError \/ e = OverflowError \/ e = ZeroDivisionError.
Proof.
  unfold py_truediv, int_truediv, float_truediv, int_as_float, bind.
  destruct (as_number a) as [[x|x]|], (as_number b) as [[y|y]|];
    repeat match goal with
           | |- context [if ?c then _ else _] => destruct c
           end;
    intros H; try discriminate H; injection H as <-; auto.
Qed.

Lemma count_series_raises (d : Snapshot) (s : pyval) (e : exn) :
  count_series d s = Raise e ->
  e = AttributeError \/ e = TypeError \/ e = OverflowError.
Proof.
  intros H.
  pose proof (count_series_no_zero_division d s) as Hz.
  revert H Hz. unfold count_series, percentage, bind.
  destruct (py_get s "totalEpisodes" (PInt 0)) as [tv|e1] eqn:Ht.
  2:{ apply py_get_raises in Ht. intros H _. injection H as <-. auto. }
  destruct (py_get s "episode_count" (PInt 0)) as [ov|e1] eqn:Ho.
  2:{ apply py_get_raises in Ho. intros H _. injection H as <-. auto. }
  destruct (has_episodes tv) as [[|]|e1] eqn:Hg.
  - destruct (py_truediv ov tv) as [q|e1] eqn:Hq; [discriminate|].
    intros H Hz. injection H as <-.
    apply py_truediv_raises in Hq. destruct Hq as [-> | [-> | ->]]; auto.
    now contradiction Hz.
  - discriminate.
  - apply has_episodes_raises in Hg. intros H _. injection H as <-. auto.
Qed.

Lemma count_all_raises (l : list pyval) :
  forall d e, count_all d l = Raise e ->
    e = AttributeError \/ e = TypeError \/ e = OverflowError.
Proof.
  induction l as [|s rest IH]; intros d e; simpl; [discriminate|].
  unfold bind. destruct (count_series d s) as [d1|e1] eqn:Hs.
  - apply IH.
  - intros H. injection H as <-. eapply count_series_raises; eassumption.
Qed.

Lemma process_body_raises (v : pyval) (e : exn) :
  process_body v = Raise e ->
  is_list v = true /\
  (e = AttributeError \/ e = TypeError \/ e = OverflowError).
Proof.
  unfold process_body, bind.
  destruct (count_all _ _) as [d1|e1] eqn:Hloop.
  - apply count_all_partial in Hloop. destruct Hloop as (n & Hn & Hext).
    unfold extends, analyzed in Hext. simpl in Hext.
    rewrite set_percentage_ok by lia.
    discriminate.
  - intros H. injection H as <-. split.
    + destruct v; try discriminate Hloop. reflexivity.
    + eapply count_all_raises; eassumption.
Qed.

Lemma transport_failure_raises (r : post_outcome) :
  transport_failure r = true ->
  exists why, async_update_data r = Raise (UpdateFailed why).
Proof.
  destruct r as [| |status body]; simpl; intros H.
  - now exists ErrorCommunicating.
  - now exists TimeoutCommunicating.
  - destruct (status =? 200); [|discriminate].
    destruct body; try discriminate.
    + now exists ErrorCommunicating.
    + now exists TimeoutCommunicating.
Qed.

(** X1: a poll raises UpdateFailed exactly when the POST, or the reading
    of the body of a 200 answer, raises a client error or times out.  The
    other exceptions of a poll are not turned into UpdateFailed: ValueError
    comes from a 200 answer whose body does not decode, and
    AttributeError, TypeError and OverflowError from an element of a 200
    answer that is a list. *)
Theorem X1_update_failed_iff_transport_failure (r : post_outcome) :
  ((exists why, async_update_data r = Raise (UpdateFailed why)) <->
   transport_failure r = true) /\
  (forall e, async_update_data r = Raise e ->
     match e with
     | UpdateFailed _ => transport_failure r = true
     | ValueError => r = PostResponse 200 JsonDecodeError
     | ZeroDivisionError => False
     | AttributeError | TypeError | OverflowError =>
         exists l, r = PostResponse 200 (JsonBody (PList l))
     end).
Proof.
  assert (Hraise : forall e, async_update_data r = Raise e ->
     match e with
     | UpdateFailed _ => transport_failure r = true
     | ValueError => r = PostResponse 200 JsonDecodeError
     | ZeroDivisionError => False
     | AttributeError | TypeError | OverflowError =>
         exists l, r = PostResponse 200 (JsonBody (PList l))
     end).
  { intros e. destruct r as [| |status body]; simpl.
    - intros H. now injection H as <-.
    - intros H. now injection H as <-.
    - destruct (Z.eqb_spec status 200) as [-> | Hne]; [|discriminate].
      destruct body as [v| | |].
      + intros H. apply process_body_raises in H.
        destruct H as (Hl & He). destruct v; try discriminate Hl.
        destruct He as [-> | [-> | ->]]; now exists l.
      + intros H. now injection H as <-.
      + intros H. now injection H as <-.
      + intros H. now injection H as <-. }
  split; [|exact Hraise]. split.
  - intros (why & H). exact (Hraise _ H).
  - apply transport_failure_raises.
Qed.

Lemma X1_update_failed_iff_transport_failure_witness :
  transport_failure (PostResponse 200 JsonTimeout) = true /\
  async_update_data (PostResponse 200 (JsonBody (PList [PInt 7])))
    = Raise AttributeError /\
  exists l, PostResponse 200 (JsonBody (PList [PInt 7]))
            = PostResponse 200 (JsonBody (PList l)).
Proof.
  split; [|split].
  - apply (proj1 (X1_update_failed_iff_transport_failure
                    (PostResponse 200 JsonTimeout))).
    now exists TimeoutCommunicating.
  - reflexivity.
  - exact (proj2 (X1_update_failed_iff_transport_failure
                    (PostResponse 200 (JsonBody (PList [PInt 7]))))
             AttributeError eq_refl).
Defined.

(** ** Malformed elements *)

Lemma count_all_app (l1 l2 : list pyval) :
  forall d, count_all d (l1 ++ l2) = (d1 <- count_all d l1 ;; count_all d1 l2).
Proof.
  induction l1 as [|s rest IH]; intros d; simpl; [reflexivity|].
  unfold bind at 1 3. destruct (count_series d s); [apply IH | reflexivity].
Qed.

Lemma count_series_not_dict (d : Snapshot) (s : pyval) :
  is_dict s = false -> count_series d s = Raise AttributeError.
Proof. destruct s; try discriminate; reflexivity. Qed.

Lemma count_all_not_dict (l : list pyval) (bad : pyval) :
  In bad l -> is_dict bad = false ->
  forall d, exists e, count_all d l = Raise e.
Proof.
  induction l as [|s rest IH]; intros Hin Hbad d; [contradiction|].
  simpl. unfold bind. destruct (count_series d s) as [d1|e] eqn:Hs.
  - destruct Hin as [-> | Hin].
    + rewrite count_series_not_dict in Hs by assumption. discriminate.
    + now apply IH.
  - now exists e.
Qed.

Lemma refresh_raise (c : Coordinator) (r : post_outcome) (e : exn) :
  async_update_data r = Raise e ->
  data (refresh c r) = data c /\ last_update_success (refresh c r) = false.
Proof. intros H. unfold refresh. rewrite H. now split. Qed.

(** X2: one element that is not an object fails the whole poll, wherever
    it stands in the list: the update raises AttributeError, TypeError or
    OverflowError, never returns a snapshot of the other elements, and the
    refresh keeps the cached snapshot.  When the elements before it are
    series records the exception is AttributeError. *)
Theorem X2_malformed_element_fails_poll :
  (forall (l : list pyval) (bad : pyval) (c : Coordinator),
     In bad l -> is_dict bad = false ->
     exists e,
       async_update_data (PostResponse 200 (JsonBody (PList l))) = Raise e /\
       (e = AttributeError \/ e = TypeError \/ e = OverflowError) /\
       data (refresh c (PostResponse 200 (JsonBody (PList l)))) = data c) /\
  (forall (l1 l2 : list pyval) (bad : pyval),
     Forall (fun s => is_series_record s = true) l1 ->
     is_dict bad = false ->
     async_update_data (PostResponse 200 (JsonBody (PList (l1 ++ bad :: l2))))
       = Raise AttributeError).
Proof.
  split.
  - intros l bad c Hin Hbad.
    destruct (count_all_not_dict l bad Hin Hbad (set_series l initial_data))
      as (e & He).
    assert (Hu : async_update_data (PostResponse 200 (JsonBody (PList l)))
                 = Raise e).
    { cbn [async_update_data Z.eqb Pos.eqb]. unfold process_body.
      cbn [as_series_list]. now rewrite He. }
    exists e. split; [assumption|]. split.
    + eapply count_all_raises; eassumption.
    + now apply (refresh_raise c _ e).
  - intros l1 l2 bad Hl Hbad.
    cbn [async_update_data Z.eqb Pos.eqb]. unfold process_body.
    cbn [as_series_list]. rewrite count_all_app.
    destruct (count_all_records l1 Hl
                (set_series (l1 ++ bad :: l2) initial_data)) as (d1 & Hd1 & _).
    rewrite Hd1. cbn [bind count_all].
    now rewrite count_series_not_dict.
Qed.

Lemma X2_malformed_element_fails_poll_witness :
  async_update_data
    (PostResponse 200 (JsonBody (PList (example_series ++ PStr "Omega" :: []))))
  = Raise AttributeError.
Proof.
  apply (proj2 X2_malformed_element_fails_poll example_series [] (PStr "Omega")).
  - repeat constructor.
  - reflexivity.
Defined.

(** ** The counters, bucket by bucket *)

Lemma count_series_verdict (d : Snapshot) (s : pyval) :
  count_series d s = (v <- verdict s ;; Ok (add_to_bucket v d)).
Proof.
  unfold count_series, verdict, bind.
  destruct (py_get s "totalEpisodes" (PInt 0)) as [tv|]; [|reflexivity].
  destruct (py_get s "episode_count" (PInt 0)) as [ov|]; [|reflexivity].
  destruct (has_episodes tv) as [[|]|]; try reflexivity.
  destruct (percentage ov tv) as [pct|]; [|reflexivity].
  unfold classify, bucket_of, add_to_bucket.
  destruct (fge_int pct 100); [reflexivity|].
  now destruct (flt_int pct 50).
Qed.

Lemma count_bucket_cons (b : bucket) (s : pyval) (l : list pyval) :
  count_bucket b (s :: l) =
  (if in_bucket b s then 1 else 0) + count_bucket b l.
Proof.
  unfold count_bucket. simpl filter.
  destruct (in_bucket b s); [|reflexivity].
  rewrite List.length_cons. lia.
Qed.

(** The loop returns exactly when no record raises, and then each counter
    has grown by the number of records of its bucket. *)
Lemma count_all_buckets (l : list pyval) :
  forall d,
    if forallb raises_nothing l
    then exists d',
           count_all d l = Ok d' /\
           total d' = total d /\ series d' = series d /\
           completion_pct d' = completion_pct d /\
           complete d' = complete d + count_bucket Complete l /\
           critical d' = critical d + count_bucket Critical l /\
           incomplete d' = incomplete d + count_bucket Incomplete l
    else exists e, count_all d l = Raise e.
Proof.
  induction l as [|s rest IH]; intros d.
  - simpl. exists d. unfold count_bucket. simpl. repeat split; lia.
  - simpl forallb. simpl count_all. rewrite count_series_verdict.
    rewrite !count_bucket_cons. unfold in_bucket.
    change (raises_nothing s)
      with (match verdict s with Ok _ => true | Raise _ => false end).
    destruct (verdict s) as [v|e]; cbn [bind andb]; [|now exists e].
    specialize (IH (add_to_bucket v d)).
    destruct (forallb raises_nothing rest); [|exact IH].
    destruct IH as (d' & Hd' & Ht & Hs & Hp & Hc & Hk & Hi).
    exists d'. split; [assumption|].
    destruct v as [[| |]|];
      unfold add_to_bucket, incr_complete, incr_critical, incr_incomplete in *;
      cbn [bucket_eqb complete critical incomplete total series completion_pct]
        in *;
      repeat split; try congruence; lia.
Qed.

Lemma forallb_perm {A : Type} (f : A -> bool) (l l' : list A) :
  Permutation l l' -> forallb f l = forallb f l'.
Proof.
  induction 1 as [|x l l' _ IH|x y l|l l' l'' _ IH1 _ IH2]; simpl.
  - reflexivity.
  - now rewrite IH.
  - destruct (f x), (f y); reflexivity.
  - congruence.
Qed.

Lemma count_bucket_perm (b : bucket) (l l' : list pyval) :
  Permutation l l' -> count_bucket b l = count_bucket b l'.
Proof.
  induction 1 as [|x l l' _ IH|x y l|l l' l'' _ IH1 _ IH2].
  - reflexivity.
  - rewrite !count_bucket_cons. lia.
  - rewrite !count_bucket_cons. lia.
  - congruence.
Qed.

(** The update on a list, in terms of its records. *)
Lemma async_update_data_buckets (l : list pyval) :
  if forallb raises_nothing l
  then exists d,
         async_update_data (PostResponse 200 (JsonBody (PList l))) = Ok d /\
         series d = l /\
         total d = Z.of_nat (List.length l) /\
         complete d = count_bucket Complete l /\
         critical d = count_bucket Critical l /\
         incomplete d = count_bucket Incomplete l /\
         completion_pct d =
           (if 0 <? analyzed d
            then rounded_percentage (complete d) (analyzed d)
            else F.zero)
  else exists e,
         async_update_data (PostResponse 200 (JsonBody (PList l))) = Raise e.
Proof.
  cbn [async_update_data Z.eqb Pos.eqb]. unfold process_body.
  cbn [as_series_list].
  pose proof (count_all_buckets l (set_series l initial_data)) as H.
  destruct (forallb raises_nothing l).
  - destruct H as (d1 & Hd1 & Ht & Hs & Hp & Hc & Hk & Hi).
    rewrite Hd1. cbn [bind]. simpl in Ht, Hs, Hp, Hc, Hk, Hi.
    assert (0 <= count_bucket Complete l /\ 0 <= count_bucket Critical l /\
            0 <= count_bucket Incomplete l) as (? & ? & ?)
      by (unfold count_bucket; lia).
    rewrite set_percentage_ok by lia.
    eexists. split; [reflexivity|].
    unfold analyzed.
    destruct (0 <? complete d1 + incomplete d1 + critical d1) eqn:E; simpl;
      rewrite ?E; repeat split; try assumption; congruence.
  - destruct H as (e & He). rewrite He. now exists e.
Qed.

(** X3: every counter of a returned snapshot is the number of the records
    of the list that the three-way test puts in its bucket, [total] is the
    length of the list, and [series] is the list itself, in its order. *)
Theorem X3_counters_count_buckets (l : list pyval) (d : Snapshot) :
  async_update_data (PostResponse 200 (JsonBody (PList l))) = Ok d ->
  series d = l /\
  total d = Z.of_nat (List.length l) /\
  complete d = count_bucket Complete l /\
  critical d = count_bucket Critical l /\
  incomplete d = count_bucket Incomplete l.
Proof.
  intros H. pose proof (async_update_data_buckets l) as Hb.
  destruct (forallb raises_nothing l).
  - destruct Hb as (d' & Hd' & Hs & Ht & Hc & Hk & Hi & _).
    rewrite H in Hd'. injection Hd' as <-. repeat split; assumption.
  - destruct Hb as (e & He). rewrite H in He. discriminate He.
Qed.

Lemma X3_counters_count_buckets_witness :
  exists d,
    async_update_data example_poll = Ok d /\
    series d = example_series /\ total d = 4 /\
    complete d = 1 /\ critical d = 1 /\ incomplete d = 1.
Proof.
  eexists. split; [vm_compute; reflexivity|].
  apply (X3_counters_count_buckets example_series).
  vm_compute. reflexivity.
Defined.

(** X4: the figures do not depend on the order of the records: when the
    update returns a snapshot for a list, it returns one for every
    permutation of the list, with the same [total], the same three
    counters and the same [completion_pct], and with the permuted list as
    [series]. *)
Theorem X4_figures_invariant_under_permutation (l l' : list pyval) (d : Snapshot) :
  Permutation l l' ->
  async_update_data (PostResponse 200 (JsonBody (PList l))) = Ok d ->
  exists d',
    async_update_data (PostResponse 200 (JsonBody (PList l'))) = Ok d' /\
    same_figures d d' /\ series d' = l'.
Proof.
  intros Hperm H.
  pose proof (async_update_data_buckets l) as Hb.
  pose proof (async_update_data_buckets l') as Hb'.
  rewrite <- (forallb_perm raises_nothing l l' Hperm) in Hb'.
  destruct (forallb raises_nothing l).
  - destruct Hb as (d0 & Hd0 & Hs & Ht & Hc & Hk & Hi & Hp).
    rewrite H in Hd0. injection Hd0 as <-.
    destruct Hb' as (d' & Hd' & Hs' & Ht' & Hc' & Hk' & Hi' & Hp').
    exists d'. split; [assumption|]. split; [|assumption].
    rewrite <- (count_bucket_perm Complete l l' Hperm) in Hc'.
    rewrite <- (count_bucket_perm Critical l l' Hperm) in Hk'.
    rewrite <- (count_bucket_perm Incomplete l l' Hperm) in Hi'.
    rewrite <- (Permutation_length Hperm) in Ht'.
    unfold same_figures. rewrite Hp, Hp'. unfold analyzed.
    rewrite Ht, Ht', Hc, Hc', Hk, Hk', Hi, Hi'. repeat split.
  - destruct Hb as (e & He). rewrite H in He. discriminate He.
Qed.

Lemma X4_figures_invariant_under_permutation_witness :
  exists d',
    async_update_data (PostResponse 200 (JsonBody (PList (rev example_series))))
      = Ok d' /\
    complete d' = 1 /\ series d' = rev example_series.
Proof.
  destruct (X4_figures_invariant_under_permutation
              example_series (rev example_series)
              {| total := 4; complete := 1; incomplete := 1; critical := 1;
                 completion_pct := F.div (F.raw 333) (F.raw 10);
                 series := example_series |}
              (Permutation_rev example_series))
    as (d' & Hd' & (_ & Hc & _) & Hs).
  - vm_compute. reflexivity.
  - exists d'. repeat split; assumption.
Defined.

(** ** The ends of the scale *)

(** An integer divided by itself is the float 1.0. *)
Lemma div_raw_self (a : Z) :
  0 < a -> F.div (F.raw a) (F.raw a) = F.of_Z 1.
Proof.
  destruct a as [|p|p]; intros Ha; try lia.
  unfold F.div, F.raw, SFdiv.
  assert (Hcore : SFdiv_core_binary F.prec F.emax (Z.pos p) 0 (Z.pos p) 0
                  = (2 ^ 53, -53, loc_Exact)).
  { unfold SFdiv_core_binary.
    replace (Zdigits2 (Z.pos p) + 0 - (Zdigits2 (Z.pos p) + 0)) with 0 by lia.
    change (Z.min (fexp F.prec F.emax 0) (0 - 0)) with (-53).
    change (0 - 0 - -53) with 53.
    cbv iota beta.
    pose proof (Z_div_mod (Z.shiftl (Z.pos p) 53) (Z.pos p) ltac:(lia)) as Hdm.
    destruct (Z.div_eucl (Z.shiftl (Z.pos p) 53) (Z.pos p)) as [q r].
    rewrite Z.shiftl_mul_pow2 in Hdm by lia.
    destruct Hdm as (Hq & Hr).
    assert (r = 0 /\ q = 2 ^ 53) as (-> & ->).
    { generalize dependent (2 ^ 53). intros K Hq.
      assert (q <= K) by nia. assert (K <= q) by nia.
      assert (q = K) by lia. subst q. split; lia. }
    unfold new_location.
    destruct (Z.even (Z.pos p)); reflexivity. }
  rewrite Hcore. vm_compute. reflexivity.
Qed.

Lemma rounded_percentage_all (a : Z) :
  0 < a -> rounded_percentage a a = F.of_Z 100.
Proof.
  intros Ha. unfold rounded_percentage. rewrite div_raw_self by assumption.
  vm_compute. reflexivity.
Qed.

Lemma rounded_percentage_none (a : Z) :
  0 < a -> rounded_percentage 0 a = F.zero.
Proof. destruct a; intros Ha; try lia. reflexivity. Qed.

(** X5: when at least one record was classified, [completion_pct] is
    exactly [100.0] if every classified record is complete and exactly
    [0.0] if none is. *)
Theorem X5_completion_pct_ends (r : post_outcome) (d : Snapshot) :
  async_update_data r = Ok d ->
  0 < complete d + incomplete d + critical d ->
  (incomplete d + critical d = 0 -> completion_pct d = F.of_Z 100) /\
  (complete d = 0 -> completion_pct d = F.zero).
Proof.
  intros H Hpos. apply async_update_data_partial in H.
  destruct H as (_ & Hc & Hi & Hk & _ & Hp).
  unfold analyzed in Hp.
  pose proof Hpos as Hb. apply Z.ltb_lt in Hb. rewrite Hb in Hp.
  split; intros Hz; rewrite Hp.
  - replace (complete d + incomplete d + critical d) with (complete d) by lia.
    apply rounded_percentage_all. lia.
  - rewrite Hz. apply rounded_percentage_none. lia.
Qed.

Lemma X5_completion_pct_ends_witness :
  exists d,
    async_update_data
      (PostResponse 200
         (JsonBody (PList [series_of "Alpha" 10 10; series_of "Iota" 26 24])))
      = Ok d /\
    completion_pct d = F.of_Z 100.
Proof.
  eexists. split; [vm_compute; reflexivity|].
  refine (proj1 (X5_completion_pct_ends
                   (PostResponse 200
                      (JsonBody (PList [series_of "Alpha" 10 10;
                                        series_of "Iota" 26 24]))) _ _ _) _).
  - vm_compute. reflexivity.
  - reflexivity.
  - reflexivity.
Defined.

(** ** The percentage stays on its scale *)

Lemma shr_1_exact (rec : shr_record) (t : Z) :
  shr_r rec = false -> shr_s rec = false -> 0 <= t -> shr_m rec = 2 * t ->
  shr_1 rec = {| shr_m := t; shr_r := false; shr_s := false |}.
Proof.
  destruct rec as [m r s0]; simpl. intros -> -> Ht Hm. subst m.
  destruct t as [|p|p]; try lia; reflexivity.
Qed.

Lemma iter_shr_1_exact (p : positive) :
  forall rec t,
    shr_r rec = false -> shr_s rec = false -> 0 <= t ->
    shr_m rec = t * 2 ^ Zpos p ->
    iter_pos shr_1 p rec = {| shr_m := t; shr_r := false; shr_s := false |}.
Proof.
  assert (Hpow : forall q, 0 < 2 ^ Zpos q) by (intros; apply Z.pow_pos_nonneg; lia).
  induction p as [p IH | p IH |]; intros rec t Hr Hs Ht Hm; simpl iter_pos.
  - pose proof (Hpow p).
    assert (H1 : shr_1 rec =
                 {| shr_m := t * 2 ^ Zpos p * 2 ^ Zpos p;
                    shr_r := false; shr_s := false |}).
    { apply shr_1_exact; try assumption; [nia|].
      rewrite Hm. replace (Z.pos p~1) with (1 + Z.pos p + Z.pos p) by lia.
      rewrite !Z.pow_add_r by lia. lia. }
    rewrite H1.
    assert (H2 : iter_pos shr_1 p
                   {| shr_m := t * 2 ^ Zpos p * 2 ^ Zpos p;
                      shr_r := false; shr_s := false |} =
                 {| shr_m := t * 2 ^ Zpos p; shr_r := false; shr_s := false |}).
    { apply IH; try reflexivity. nia. }
    rewrite H2. now apply IH.
  - pose proof (Hpow p).
    assert (H2 : iter_pos shr_1 p rec =
                 {| shr_m := t * 2 ^ Zpos p; shr_r := false; shr_s := false |}).
    { apply IH; try assumption; [nia|].
      rewrite Hm. replace (Z.pos p~0) with (Z.pos p + Z.pos p) by lia.
      rewrite !Z.pow_add_r by lia. lia. }
    rewrite H2. now apply IH.
  - apply shr_1_exact; try assumption. rewrite Hm. lia.
Qed.

Section RoundingBound.

(** The bound [B * 2^g] on the value and the bound [L] on the exponent. *)
Variables B g L : Z.
Hypothesis B_pos : 0 < B.
Hypothesis L_le_g : L <= g.
Hypothesis L_subnormal : -1074 <= L.
Hypothesis L_max : L <= 971.
Hypothesis L_digits : Zdigits2 B + g - 53 <= L.

Lemma shr_fexp_le (M E : Z) (l : location) :
  0 <= M -> E <= L -> M <= B * 2 ^ (g - E) ->
  let '(mrs, e1) := shr_fexp F.prec F.emax M E l in
  e1 <= L /\ 0 <= shr_m mrs /\ shr_m mrs <= B * 2 ^ (g - e1) /\
  (M < B * 2 ^ (g - E) -> shr_m mrs < B * 2 ^ (g - e1)) /\
  (l = loc_Exact -> M = B * 2 ^ (g - E) ->
   loc_of_shr_record mrs = loc_Exact).
Proof.
  intros HM HE Hle. unfold shr_fexp, shr.
  assert (Hrec : shr_m (shr_record_of_loc M l) = M)
    by (destruct l as [|[]]; reflexivity).
  assert (Hd : Zdigits2 M + E <= Zdigits2 B + g).
  { pose proof (Zdigits2_upper B ltac:(lia)) as HB.
    pose proof (Zdigits2_nonneg B) as HB0.
    assert (0 < 2 ^ (g - E)) by (apply Z.pow_pos_nonneg; lia).
    assert (Zdigits2 M <= Zdigits2 B + (g - E)); [|lia].
    apply Zdigits2_le_of_lt; [assumption | lia |].
    rewrite Z.pow_add_r by lia. nia. }
  pose proof (fexp64_eq (Zdigits2 M + E)) as Hf.
  destruct (fexp F.prec F.emax (Zdigits2 M + E) - E) as [|p|p] eqn:Hn.
  - rewrite Hrec. repeat split; try lia. intros -> _. reflexivity.
  - assert (Hpow : 0 < 2 ^ Z.pos p) by (apply Z.pow_pos_nonneg; lia).
    assert (He1 : E + Z.pos p <= L) by lia.
    assert (Hk : 0 < 2 ^ (g - (E + Z.pos p))) by (apply Z.pow_pos_nonneg; lia).
    assert (Hsplit : B * 2 ^ (g - E)
                     = B * 2 ^ (g - (E + Z.pos p)) * 2 ^ Z.pos p).
    { replace (g - E) with (g - (E + Z.pos p) + Z.pos p) by lia.
      rewrite Z.pow_add_r by lia. lia. }
    rewrite iter_shr_1_div by (rewrite Hrec; assumption). rewrite Hrec.
    split; [assumption|]. split; [apply Z.div_pos; lia|].
    split; [|split].
    + apply Z.div_le_upper_bound; [assumption|]. lia.
    + intros Hlt. apply Z.div_lt_upper_bound; [assumption|]. lia.
    + intros -> HMeq. simpl shr_record_of_loc.
      rewrite (iter_shr_1_exact p _ (B * 2 ^ (g - (E + Z.pos p))));
        try reflexivity; [nia | simpl; lia].
  - rewrite Hrec. repeat split; try lia. intros -> _. reflexivity.
Qed.

(** Rounding to nearest does not step over a bound that is itself a
    multiple of the unit in the last place. *)
Lemma binary_round_aux_le (M E : Z) (l : location) :
  0 <= M -> E <= L -> M <= B * 2 ^ (g - E) ->
  (l <> loc_Exact -> M < B * 2 ^ (g - E)) ->
  bounded_float B g L (binary_round_aux F.prec F.emax false M E l).
Proof.
  intros HM HE Hle Hstrict. unfold binary_round_aux.
  pose proof (shr_fexp_le M E l HM HE Hle) as H1.
  destruct (shr_fexp F.prec F.emax M E l) as [mrs' e1].
  destruct H1 as (He1 & Hm0 & Hm1 & Hlt & Hex).
  set (mr := round_nearest_even (shr_m mrs') (loc_of_shr_record mrs')).
  assert (Hmr : 0 <= mr <= B * 2 ^ (g - e1)).
  { assert (Hcases : M < B * 2 ^ (g - E) \/ M = B * 2 ^ (g - E)) by lia.
    destruct Hcases as [Hc | Hc].
    - specialize (Hlt Hc). unfold mr, round_nearest_even.
      destruct (loc_of_shr_record mrs') as [|[]];
        try destruct (Z.even (shr_m mrs')); lia.
    - assert (Hl : l = loc_Exact).
      { destruct l as [|c]; [reflexivity|].
        assert (M < B * 2 ^ (g - E)) by (apply Hstrict; discriminate). lia. }
      unfold mr. rewrite (Hex Hl Hc). simpl. lia. }
  pose proof (shr_fexp_le mr e1 loc_Exact ltac:(lia) He1 ltac:(lia)) as H2.
  destruct (shr_fexp F.prec F.emax mr e1 loc_Exact) as [mrs'' e2].
  destruct H2 as (He2 & Hn0 & Hn1 & _ & _).
  destruct (shr_m mrs'') as [|m|m] eqn:Hm''; try lia.
  - now left.
  - replace (e2 <=? F.emax - F.prec) with true
      by (symmetry; apply Z.leb_le; unfold F.emax, F.prec; lia).
    right. exists m, e2. repeat split; assumption.
Qed.

End RoundingBound.

(** The quotient of the division core stays below [2^s] when the dividend
    is not above the divisor. *)
Lemma SFdiv_core_binary_le (c a : positive) :
  (c <= a)%positive ->
  let '(q, e', l) := SFdiv_core_binary F.prec F.emax (Zpos c) 0 (Zpos a) 0 in
  0 <= q /\ e' <= 0 /\ q <= 1 * 2 ^ (- e') /\
  (l <> loc_Exact -> q < 1 * 2 ^ (- e')).
Proof.
  intros Hca. unfold SFdiv_core_binary.
  set (d1 := Zdigits2 (Z.pos c)). set (d2 := Zdigits2 (Z.pos a)).
  rewrite !Z.add_0_r, Z.sub_0_r.
  set (e' := Z.min (fexp F.prec F.emax (d1 - d2)) 0).
  assert (He' : e' <= 0) by (unfold e'; lia).
  set (m' := match 0 - e' with
             | Zpos _ => Z.shiftl (Zpos c) (0 - e')
             | Z0 => Zpos c
             | Zneg _ => 0
             end).
  assert (Hm' : m' = Zpos c * 2 ^ (- e')).
  { unfold m'. destruct (0 - e') as [|p|p] eqn:Hs; try lia.
    - replace (- e') with 0 by lia. lia.
    - rewrite Z.shiftl_mul_pow2 by lia. f_equal. f_equal. lia. }
  pose proof (Z_div_mod m' (Zpos a) ltac:(lia)) as Hdm.
  destruct (Z.div_eucl m' (Z.pos a)) as [q r]. destruct Hdm as (Hq & Hr).
  assert (Hpow : 0 < 2 ^ (- e')) by (apply Z.pow_pos_nonneg; lia).
  assert (Hq0 : 0 <= q) by nia.
  assert (Hca' : Z.pos c <= Z.pos a) by lia.
  assert (Hle : Z.pos c * 2 ^ (- e') <= Z.pos a * 2 ^ (- e'))
    by (apply Z.mul_le_mono_nonneg_r; lia).
  split; [assumption|]. split; [assumption|]. split; [nia|].
  intros Hl.
  assert (Hr0 : r <> 0).
  { intros ->. apply Hl. unfold new_location.
    destruct (Z.even (Z.pos a)); reflexivity. }
  nia.
Qed.

(** A count divided by a count that is not smaller is at most 1.0. *)
Lemma div_raw_le_one (c a : Z) :
  0 <= c <= a -> 0 < a -> bounded_float 1 0 0 (F.div (F.raw c) (F.raw a)).
Proof.
  intros Hc Ha.
  destruct a as [|pa|pa]; try lia.
  destruct c as [|pc|pc]; try lia; [now left|].
  unfold F.div, F.raw, SFdiv.
  pose proof (SFdiv_core_binary_le pc pa ltac:(lia)) as Hcore.
  destruct (SFdiv_core_binary F.prec F.emax (Z.pos pc) 0 (Z.pos pa) 0)
    as [[q e'] l].
  destruct Hcore as (Hq & He & Hle & Hlt).
  cbn [xorb].
  apply binary_round_aux_le; rewrite ?Z.sub_0_l; try assumption; try lia.
  simpl. lia.
Qed.

Lemma of_Z_100 : F.of_Z 100 = S754_finite false 7036874417766400 (-46).
Proof. reflexivity. Qed.

(** Times 100, a float of at most 1.0 is at most 100.0. *)
Lemma fmul_int_100_le (q : F.float) :
  bounded_float 1 0 0 q -> bounded_float 100 0 (-46) (fmul_int q 100).
Proof.
  unfold fmul_int. rewrite of_Z_100.
  intros [-> | (m & e & -> & He & Hm)]; [now left|].
  unfold F.mul, SFmul. cbn [xorb]. rewrite Z.sub_0_l in Hm.
  assert (Hpow : 0 < 2 ^ (- e)) by (apply Z.pow_pos_nonneg; lia).
  assert (Hval : Z.pos (m * 7036874417766400) <= 100 * 2 ^ (0 - (e + -46))).
  { replace (0 - (e + -46)) with (46 + - e) by lia.
    rewrite Z.pow_add_r by lia. rewrite Pos2Z.inj_mul.
    change (2 ^ 46) with 70368744177664. lia. }
  apply binary_round_aux_le; try lia.
  - simpl. lia.
  - intros H. now contradiction H.
Qed.

Lemma In_Zrange (n : nat) :
  forall lo k, lo <= k < lo + Z.of_nat n -> In k (Zrange lo n).
Proof.
  induction n as [|n IH]; intros lo k Hk; [lia|].
  simpl. destruct (Z.eq_dec lo k) as [-> | Hne]; [now left|].
  right. apply IH. lia.
Qed.

(** Every tenth from 0.1 to 100.0 reads as a float between 0.0 and
    100.0. *)
Lemma tenths_in_scale (k : Z) : 0 <= k <= 1000 -> tenth_in_scale k = true.
Proof.
  intros Hk. destruct (Z.eq_dec k 0) as [-> | Hnz]; [reflexivity|].
  assert (Hall : forallb tenth_in_scale (Zrange 1 1000) = true)
    by (vm_compute; reflexivity).
  rewrite forallb_forall in Hall. apply Hall. apply In_Zrange. lia.
Qed.

Lemma nearest_tenths_le (m : positive) (e : Z) :
  e <= -46 -> Zpos m <= 100 * 2 ^ (- e) ->
  0 <= F.nearest_tenths m e <= 1000.
Proof.
  intros He Hm. destruct e as [|pe|pe]; try lia.
  unfold F.nearest_tenths.
  change (- Z.neg pe) with (Z.pos pe) in Hm.
  assert (Hd : 0 < 2 ^ Z.pos pe) by (apply Z.pow_pos_nonneg; lia).
  pose proof (Z_div_mod_eq_full (10 * Z.pos m) (2 ^ Z.pos pe)) as Hdm.
  pose proof (Z.mod_pos_bound (10 * Z.pos m) (2 ^ Z.pos pe) Hd) as Hr.
  set (q := 10 * Z.pos m / 2 ^ Z.pos pe) in *.
  set (r := (10 * Z.pos m) mod 2 ^ Z.pos pe) in *.
  assert (Hq0 : 0 <= q) by (apply Z.div_pos; lia).
  assert (Hq : q <= 1000) by nia.
  destruct (Z.compare_spec (2 * r) (2 ^ Z.pos pe)) as [Heq | Hlt | Hgt].
  - destruct (Z.even q); nia.
  - lia.
  - nia.
Qed.

(** Rounded to one decimal, a float of at most 100.0 is between 0.0 and
    100.0. *)
Lemma round1_in_scale (x : F.float) :
  bounded_float 100 0 (-46) x ->
  F.leb F.zero (F.round1 x) = true /\ F.leb (F.round1 x) (F.of_Z 100) = true.
Proof.
  intros [-> | (m & e & -> & He & Hm)]; [split; reflexivity|].
  rewrite Z.sub_0_l in Hm. unfold F.round1.
  pose proof (nearest_tenths_le m e He Hm) as Hk.
  pose proof (tenths_in_scale (F.nearest_tenths m e) Hk) as Ht.
  destruct (F.nearest_tenths m e) as [|k|k]; try lia.
  - split; reflexivity.
  - unfold tenth_in_scale in Ht. now apply andb_true_iff in Ht.
Qed.

Lemma rounded_percentage_in_scale (c a : Z) :
  0 <= c <= a -> 0 < a ->
  F.leb F.zero (rounded_percentage c a) = true /\
  F.leb (rounded_percentage c a) (F.of_Z 100) = true.
Proof.
  intros Hc Ha. unfold rounded_percentage.
  apply round1_in_scale, fmul_int_100_le, div_raw_le_one; assumption.
Qed.

(** X6: in every snapshot the update returns, [completion_pct] is a float
    between [0.0] and [100.0], both included; it is never a NaN, an
    infinity or a negative number. *)
Theorem X6_completion_pct_in_scale (r : post_outcome) (d : Snapshot) :
  async_update_data r = Ok d ->
  F.leb F.zero (completion_pct d) = true /\
  F.leb (completion_pct d) (F.of_Z 100) = true.
Proof.
  intros H. apply async_update_data_partial in H.
  destruct H as (_ & Hc & Hi & Hk & _ & Hp).
  rewrite Hp. destruct (0 <? analyzed d) eqn:E.
  - apply Z.ltb_lt in E. unfold analyzed in *.
    apply rounded_percentage_in_scale; lia.
  - split; reflexivity.
Qed.

Lemma X6_completion_pct_in_scale_witness :
  exists d,
    async_update_data example_poll = Ok d /\
    F.leb F.zero (completion_pct d) = true /\
    F.leb (completion_pct d) (F.of_Z 100) = true.
Proof.
  eexists. split; [vm_compute; reflexivity|].
  apply (X6_completion_pct_in_scale example_poll).
  vm_compute. reflexivity.
Defined.

(** * The config flow, the coordinator's set-up and the sensors' *)

(** ** Strings *)

Lemma append_inj_l (a x y : string) : (a ++ x = a ++ y)%string -> x = y.
Proof.
  induction a as [|c a IH]; simpl; intros H; [assumption|].
  injection H as H. now apply IH.
Qed.

Lemma has_char_append (c : ascii) (u v : string) :
  has_char c (u ++ String c v) = true.
Proof.
  induction u as [|a u IH]; simpl.
  - now rewrite Ascii.eqb_refl.
  - rewrite IH. apply orb_true_r.
Qed.

(** Two strings cut at their last occurrence of a separator are equal
    piece by piece. *)
Lemma append_separator_inj (c : ascii) (a b x y : string) :
  has_char c x = false -> has_char c y = false ->
  (a ++ String c x = b ++ String c y)%string -> a = b /\ x = y.
Proof.
  intros Hx Hy. revert b.
  induction a as [|a0 a IH]; intros [|b0 b]; simpl; intros H.
  - injection H as H. now split.
  - injection H as _ H. rewrite H, has_char_append in Hx. discriminate.
  - injection H as _ H. rewrite <- H, has_char_append in Hy. discriminate.
  - injection H as H0 H. destruct (IH b H) as (-> & ->). now subst.
Qed.

Lemma string_of_uint_digits (d : Decimal.uint) :
  has_char "_" (NilEmpty.string_of_uint d) = false.
Proof. induction d; simpl; try assumption; reflexivity. Qed.

(** The decimal writing of an integer has no underscore and tells the
    integer. *)
Lemma py_str_int_no_underscore (z : Z) : has_char "_" (py_str_int z) = false.
Proof.
  unfold py_str_int, NilZero.string_of_int, NilZero.string_of_uint.
  destruct (Z.to_int z) as [d|d]; destruct d; simpl;
    try reflexivity; apply string_of_uint_digits.
Qed.

Lemma py_str_int_inj (z1 z2 : Z) : py_str_int z1 = py_str_int z2 -> z1 = z2.
Proof.
  unfold py_str_int. intros H.
  assert (Hnn : forall z, Z.to_int z <> Decimal.Pos Decimal.Nil /\
                          Z.to_int z <> Decimal.Neg Decimal.Nil).
  { intros [|p|p]; simpl; split; try discriminate;
      intros E; injection E as E; now apply Unsigned.to_uint_nonnil in E. }
  apply DecimalZ.to_int_inj.
  assert (Hs : Some (Z.to_int z1) = Some (Z.to_int z2)).
  { rewrite <- (NilZero.isi (Z.to_int z1)) by apply Hnn.
    rewrite <- (NilZero.isi (Z.to_int z2)) by apply Hnn.
    now rewrite H. }
  now injection Hs.
Qed.

Lemma manual_unique_id_inj (h1 h2 : string) (p1 p2 : Z) :
  manual_unique_id h1 p1 = manual_unique_id h2 p2 -> h1 = h2 /\ p1 = p2.
Proof.
  unfold manual_unique_id. intros H. apply append_inj_l in H.
  apply append_separator_inj in H; try apply py_str_int_no_underscore.
  destruct H as (-> & H). split; [reflexivity | now apply py_str_int_inj].
Qed.

Lemma manual_not_hassio (h s : string) (p : Z) :
  manual_unique_id h p <> hassio_unique_id s.
Proof. unfold manual_unique_id, hassio_unique_id. simpl. discriminate. Qed.

Lemma in_strings_iff (x : string) (l : list string) :
  in_strings x l = true <-> In x l.
Proof.
  unfold in_strings. rewrite existsb_exists. split.
  - intros (y & Hin & Heq). apply String.eqb_eq in Heq. now subst.
  - intros Hin. exists x. split; [assumption | apply String.eqb_refl].
Qed.

Lemma append_assoc (a b c : string) :
  ((a ++ b) ++ c = a ++ b ++ c)%string.
Proof. induction a as [|x a IH]; simpl; [reflexivity | now rewrite IH]. Qed.

Lemma answers_200_iff (o : get_outcome) :
  answers_200 o = true <-> o = GetResponse 200.
Proof.
  destruct o as [| |status]; simpl; split; try discriminate.
  - intros H. apply Z.eqb_eq in H. now subst.
  - intros H. injection H as ->. reflexivity.
Qed.

(** ** The user step *)

Section UserStep.

Variable const : Const.
Variable configured : list string.
Variable get : Z -> string -> get_outcome.

Lemma validate_connection_spec (host : string) (port : Z) :
  validate_connection get host port =
  (answers_200 (get 10 (test_connection_url host port)),
   [ {| request_timeout := 10;
        request_url := test_connection_url host port |} ]).
Proof.
  unfold validate_connection, answers_200.
  now destruct (get 10 (test_connection_url host port)).
Qed.

(** The user step with an input whose host answers 200. *)
Lemma async_step_user_reachable (flow : Flow) (input : UserInput) :
  get 10 (test_connection_url (input_host input) (input_port input))
    = GetResponse 200 ->
  async_step_user const configured get flow (Some input) =
  (if in_strings (manual_unique_id (input_host input) (input_port input))
        configured
   then AbortFlow "already_configured" None
   else CreateEntry
          ("Series Complete (" ++ input_host input ++ ":" ++
           py_str_int (input_port input) ++ ")")%string
          {| conf_host := Some (input_host input);
             conf_port := Some (input_port input);
             conf_scan_interval :=
               Some (match input_scan_interval input with
                     | Some seconds => seconds
                     | None => DEFAULT_SCAN_INTERVAL const
                     end) |},
   set_unique_id (manual_unique_id (input_host input) (input_port input)) flow,
   [validation_request input]).
Proof.
  intros H. unfold async_step_user. rewrite validate_connection_spec, H.
  cbn [answers_200 Z.eqb Pos.eqb].
  now destruct (in_strings _ configured).
Qed.

End UserStep.

(** X7: the user step tells duplicates by host and port.  With entries
    made by hand for the hosts and ports of [manual], and entries made
    from discoveries, an input whose host answers 200 is aborted as
    already configured exactly when its host and port are in [manual];
    otherwise an entry is created, whatever was discovered. *)
Theorem X7_duplicate_by_host_and_port
    (const : Const) (get : Z -> string -> get_outcome) (flow : Flow)
    (manual : list (string * Z)) (slugs : list string) (input : UserInput) :
  get 10 (test_connection_url (input_host input) (input_port input))
    = GetResponse 200 ->
  (In (input_host input, input_port input) manual ->
   fst (fst (async_step_user const (unique_ids_of manual slugs) get flow
               (Some input)))
   = AbortFlow "already_configured" None) /\
  (~ In (input_host input, input_port input) manual ->
   exists title entry,
     fst (fst (async_step_user const (unique_ids_of manual slugs) get flow
                 (Some input)))
     = CreateEntry title entry).
Proof.
  intros Hget. rewrite (async_step_user_reachable _ _ _ _ _ Hget).
  destruct (in_strings _ (unique_ids_of manual slugs)) eqn:Hin; cbn [fst].
  - split; [reflexivity|]. intros Hnot. exfalso. apply Hnot.
    apply in_strings_iff in Hin. unfold unique_ids_of in Hin.
    apply in_app_or in Hin. destruct Hin as [Hin | Hin].
    + apply in_map_iff in Hin. destruct Hin as ((h & p) & Heq & Hin).
      apply manual_unique_id_inj in Heq. cbn [fst snd] in Heq.
      destruct Heq as (-> & ->). exact Hin.
    + apply in_map_iff in Hin. destruct Hin as (sl & Heq & _).
      symmetry in Heq. now apply manual_not_hassio in Heq.
  - split; [|intros _; eauto].
    intros Hyes. exfalso.
    assert (Htrue : in_strings
                      (manual_unique_id (input_host input) (input_port input))
                      (unique_ids_of manual slugs) = true).
    { apply in_strings_iff. unfold unique_ids_of. apply in_or_app. left.
      apply in_map_iff. now exists (input_host input, input_port input). }
    congruence.
Qed.

Lemma X7_duplicate_by_host_and_port_witness :
  fst (fst (async_step_user
              example_const
              (unique_ids_of [("plex.lan", 3000)] ["series-complete-plex"])
              (fun _ _ => GetResponse 200)
              (new_flow example_const)
              (Some (mkUserInput "plex.lan" 3000 None))))
  = AbortFlow "already_configured" None /\
  exists title entry,
    fst (fst (async_step_user
                example_const
                (unique_ids_of [("plex.lan", 3000)] ["series-complete-plex"])
                (fun _ _ => GetResponse 200)
                (new_flow example_const)
                (Some (mkUserInput "plex.lan" 3001 None))))
    = CreateEntry title entry.
Proof.
  split.
  - apply (proj1 (X7_duplicate_by_host_and_port
                    example_const
                    (fun _ _ => GetResponse 200) _
                    [("plex.lan", 3000)] ["series-complete-plex"]
                    (mkUserInput "plex.lan" 3000 None) eq_refl)).
    now left.
  - apply (proj2 (X7_duplicate_by_host_and_port
                    example_const
                    (fun _ _ => GetResponse 200) _
                    [("plex.lan", 3000)] ["series-complete-plex"]
                    (mkUserInput "plex.lan" 3001 None) eq_refl)).
    intros [H | []]. discriminate H.
Defined.

(** X8: the user step creates an entry only for an input whose host
    answered 200 to the validation request, which is then the only request
    made.  The entry holds the host and port of the input and its
    interval, or the default one; the unique id of the flow is that of the
    host and port and is not yet configured; and the coordinator set up
    from the entry has as base URL the one that was validated and as
    update interval the interval of the entry. *)
Theorem X8_entry_only_after_validation
    (const : Const) (configured : list string)
    (get : Z -> string -> get_outcome) (flow flow' : Flow)
    (user_input : option UserInput) (title : string) (entry : EntryData)
    (requests : list Request) :
  async_step_user const configured get flow user_input
    = (CreateEntry title entry, flow', requests) ->
  exists input,
    user_input = Some input /\
    get 10 (test_connection_url (input_host input) (input_port input))
      = GetResponse 200 /\
    requests = [validation_request input] /\
    entry = {| conf_host := Some (input_host input);
               conf_port := Some (input_port input);
               conf_scan_interval :=
                 Some (match input_scan_interval input with
                       | Some seconds => seconds
                       | None => DEFAULT_SCAN_INTERVAL const
                       end) |} /\
    unique_id flow'
      = Some (manual_unique_id (input_host input) (input_port input)) /\
    ~ In (manual_unique_id (input_host input) (input_port input)) configured /\
    exists c,
      coordinator_init const entry = inl c /\
      (_base_url c ++ "/api/test-connection")%string
        = test_connection_url (input_host input) (input_port input) /\
      update_interval c =
        match input_scan_interval input with
        | Some seconds => seconds
        | None => DEFAULT_SCAN_INTERVAL const
        end.
Proof.
  intros H. destruct user_input as [input|].
  2:{ unfold async_step_user, show_user_form in H.
      destruct (detect_requests get) as [detected probes].
      discriminate H. }
  exists input. split; [reflexivity|].
  destruct (answers_200 (get 10 (test_connection_url (input_host input)
                                   (input_port input)))) eqn:Ha.
  - apply answers_200_iff in Ha.
    rewrite (async_step_user_reachable _ _ _ _ _ Ha) in H.
    destruct (in_strings _ configured) eqn:Hin; [discriminate H|].
    injection H as <- <- <- <-.
    split; [assumption|]. split; [reflexivity|]. split; [reflexivity|].
    split; [reflexivity|]. split.
    + intros Hc. apply in_strings_iff in Hc. congruence.
    + eexists. split; [reflexivity|]. split; [|reflexivity].
      cbn [_base_url]. unfold test_connection_url.
      now rewrite !append_assoc.
  - unfold async_step_user in H. rewrite validate_connection_spec, Ha in H.
    unfold show_user_form in H.
    destruct (detect_requests get) as [detected probes].
    discriminate H.
Qed.

Lemma X8_entry_only_after_validation_witness :
  exists c,
    coordinator_init example_const
      {| conf_host := Some "plex.lan"; conf_port := Some 8080;
         conf_scan_interval := Some 600 |} = inl c /\
    (_base_url c ++ "/api/test-connection")%string
      = "http://plex.lan:8080/api/test-connection" /\
    update_interval c = 600.
Proof.
  destruct (X8_entry_only_after_validation
              example_const [] (fun _ _ => GetResponse 200)
              (new_flow example_const)
              (set_unique_id "manual_plex.lan_8080" (new_flow example_const))
              (Some (mkUserInput "plex.lan" 8080 (Some 600)))
              "Series Complete (plex.lan:8080)"
              {| conf_host := Some "plex.lan"; conf_port := Some 8080;
                 conf_scan_interval := Some 600 |}
              [validation_request (mkUserInput "plex.lan" 8080 (Some 600))]
              eq_refl)
    as (input & Hi & _ & _ & _ & _ & _ & c & Hc & Hu & Ht).
  injection Hi as <-. exists c. repeat split; assumption.
Defined.

(** X9: without input, or when the host of the input does not answer 200
    (another status, a client error, a timeout), the user step creates
    nothing and leaves the flow as it was: it shows the form of step
    "user", with the error "cannot_connect" under "base" in the second
    case and no error in the first.  After the validation request, if
    there was one, the fallback hostnames are probed in their order, with
    the short timeout, up to the first that answers 200: that hostname
    and the add-on port are the defaults of the form, and no hostname
    before it answered 200.  When none answers, all were probed and the
    defaults are the default host and port. *)
Theorem X9_form_with_detected_defaults
    (const : Const) (configured : list string)
    (get : Z -> string -> get_outcome) (flow : Flow)
    (user_input : option UserInput) :
  ends_on_form get user_input = true ->
  exists default_host default_port probed,
    async_step_user const configured get flow user_input =
    (ShowForm "user"
       (UserForm default_host default_port (DEFAULT_SCAN_INTERVAL const)
          match user_input with
          | None => []
          | Some _ => [("base", "cannot_connect")]
          end),
     flow,
     match user_input with
     | None => []
     | Some input => [validation_request input]
     end ++ map detection_request probed) /\
    ((In default_host FALLBACK_HOSTNAMES /\ default_port = ADDON_PORT /\
      get 3 (test_connection_url default_host ADDON_PORT) = GetResponse 200 /\
      exists before after,
        FALLBACK_HOSTNAMES = before ++ default_host :: after /\
        (forall h, In h before ->
           get 3 (test_connection_url h ADDON_PORT) <> GetResponse 200) /\
        probed = before ++ [default_host])
     \/
     (default_host = DEFAULT_HOST const /\ default_port = DEFAULT_PORT const /\
      probed = FALLBACK_HOSTNAMES /\
      forall h, In h FALLBACK_HOSTNAMES ->
        get 3 (test_connection_url h ADDON_PORT) <> GetResponse 200)).
Proof.
  intros Hform.
  set (probe := fun hostname port => get 3 (test_connection_url hostname port)).
  assert (Hnot : forall hs,
            forallb (fun x => negb (answers probe x)) hs = true ->
            forall h, In h hs ->
              get 3 (test_connection_url h ADDON_PORT) <> GetResponse 200).
  { intros hs Hall h Hin Hget. rewrite forallb_forall in Hall.
    specialize (Hall h Hin). unfold answers, probe in Hall.
    rewrite Hget in Hall. discriminate Hall. }
  pose proof (detect_from_first probe FALLBACK_HOSTNAMES []) as Hd.
  fold (detect_app probe) in Hd.
  assert (Hshow : forall errors,
    exists dh dp probed,
      show_user_form const get errors =
      (ShowForm "user" (UserForm dh dp (DEFAULT_SCAN_INTERVAL const) errors),
       map detection_request probed) /\
      ((In dh FALLBACK_HOSTNAMES /\ dp = ADDON_PORT /\
        get 3 (test_connection_url dh ADDON_PORT) = GetResponse 200 /\
        exists before after,
          FALLBACK_HOSTNAMES = before ++ dh :: after /\
          (forall h, In h before ->
             get 3 (test_connection_url h ADDON_PORT) <> GetResponse 200) /\
          probed = before ++ [dh]) \/
       (dh = DEFAULT_HOST const /\ dp = DEFAULT_PORT const /\
        probed = FALLBACK_HOSTNAMES /\
        forall h, In h FALLBACK_HOSTNAMES ->
          get 3 (test_connection_url h ADDON_PORT) <> GetResponse 200))).
  { intros errors. unfold show_user_form, detect_requests. fold probe.
    destruct (detect_app probe) as [[[h port]|] probed];
      unfold first_answer in Hd.
    - destruct Hd as (-> & Ha & before & after & Heq & Hall & Hseen).
      exists h, ADDON_PORT, probed. split; [reflexivity|]. left.
      split; [rewrite Heq; apply in_or_app; right; now left|].
      split; [reflexivity|].
      split; [now apply answers_200_iff in Ha|].
      exists before, after. split; [assumption|].
      split; [now apply Hnot | exact Hseen].
    - destruct Hd as (Hall & Hseen).
      exists (DEFAULT_HOST const), (DEFAULT_PORT const), probed.
      split; [reflexivity|]. right.
      split; [reflexivity|]. split; [reflexivity|].
      split; [exact Hseen | now apply Hnot]. }
  unfold async_step_user. destruct user_input as [input|].
  - simpl in Hform. rewrite validate_connection_spec.
    apply negb_true_iff in Hform. unfold validation_request in Hform.
    cbn [request_url] in Hform. rewrite Hform.
    destruct (Hshow [("base", "cannot_connect")])
      as (dh & dp & probed & Hs & Hcase).
    rewrite Hs. exists dh, dp, probed. split; [reflexivity | exact Hcase].
  - destruct (Hshow []) as (dh & dp & probed & Hs & Hcase).
    rewrite Hs. exists dh, dp, probed. split; [reflexivity | exact Hcase].
Qed.

Lemma X9_form_with_detected_defaults_witness :
  exists probed,
    async_step_user example_const []
      (fun timeout url =>
         if String.eqb url "http://local-series-complete-plex:3000/api/test-connection"
         then GetResponse 200 else GetTimeout)
      (new_flow example_const)
      (Some (mkUserInput "plex.lan" 8080 None))
    = (ShowForm "user"
         (UserForm "local-series-complete-plex" 3000 300
            [("base", "cannot_connect")]),
       new_flow example_const,
       [validation_request (mkUserInput "plex.lan" 8080 None)] ++
       map detection_request probed).
Proof.
  destruct (X9_form_with_detected_defaults example_const []
              (fun timeout url =>
                 if String.eqb url
                      "http://local-series-complete-plex:3000/api/test-connection"
                 then GetResponse 200 else GetTimeout)
              (new_flow example_const)
              (Some (mkUserInput "plex.lan" 8080 None)) eq_refl)
    as (dh & dp & probed & H & _).
  exists probed. rewrite H. vm_compute in H.
  injection H as -> -> _. reflexivity.
Defined.

(** ** Discovery by the Supervisor *)

(** X10: a discovery whose slug is already configured aborts, asking for
    the host and port it carries to be written into the existing entry.
    Otherwise it shows the confirmation form with that host and port, and
    confirming creates the entry "Series Complete for Plex" with them and
    with the default interval, from which the coordinator sets up with
    base URL [http://host:port].  A discovery without host or port gives
    the default host and the add-on port 3000. *)
Theorem X10_discovery_then_confirm
    (const : Const) (configured : list string) (flow : Flow)
    (info : HassioServiceInfo) :
  (In (hassio_unique_id (slug info)) configured ->
   fst (async_step_hassio const configured flow info)
   = AbortFlow "already_configured"
       (Some (discovered_host const info, discovered_port info))) /\
  (~ In (hassio_unique_id (slug info)) configured ->
   exists flow1,
     async_step_hassio const configured flow info =
     (ShowForm "hassio_confirm"
        (ConfirmForm
           [ ("addon", "Series Complete for Plex");
             ("host", discovered_host const info);
             ("port", py_str_int (discovered_port info)) ]),
      flow1) /\
     unique_id flow1 = Some (hassio_unique_id (slug info)) /\
     _hassio_discovery flow1 = Some info /\
     forall user_input,
       async_step_hassio_confirm const flow1 (Some user_input) =
       (CreateEntry "Series Complete for Plex" (discovered_entry const info),
        flow1) /\
       coordinator_init const (discovered_entry const info) =
       inl {| _host := discovered_host const info;
              _port := discovered_port info;
              _base_url :=
                ("http://" ++ discovered_host const info ++ ":" ++
                 py_str_int (discovered_port info))%string;
              update_interval := DEFAULT_SCAN_INTERVAL const |}) /\
  (config_host info = None -> config_port info = None ->
   discovered_host const info = DEFAULT_HOST const /\
   discovered_port info = 3000).
Proof.
  split; [|split].
  - intros Hin. apply in_strings_iff in Hin.
    unfold async_step_hassio. rewrite Hin. reflexivity.
  - intros Hnot. unfold async_step_hassio.
    destruct (in_strings _ configured) eqn:Hin;
      [apply in_strings_iff in Hin; contradiction|].
    eexists. split; [reflexivity|]. split; [reflexivity|].
    split; [reflexivity|]. intros user_input. split; reflexivity.
  - intros Hh Hp. unfold discovered_host, discovered_port.
    rewrite Hh, Hp. split; reflexivity.
Qed.

Lemma X10_discovery_then_confirm_witness :
  fst (async_step_hassio example_const ["hassio_series-complete-plex"]
         (new_flow example_const)
         (mkHassioServiceInfo "series-complete-plex" (Some "172.30.33.4") None))
  = AbortFlow "already_configured" (Some ("172.30.33.4", 3000)) /\
  exists flow1,
    async_step_hassio example_const [] (new_flow example_const)
      (mkHassioServiceInfo "series-complete-plex" None None)
    = (ShowForm "hassio_confirm"
         (ConfirmForm [ ("addon", "Series Complete for Plex");
                        ("host", "localhost"); ("port", "3000") ]),
       flow1).
Proof.
  split.
  - apply (proj1 (X10_discovery_then_confirm example_const
                    ["hassio_series-complete-plex"] (new_flow example_const)
                    (mkHassioServiceInfo "series-complete-plex"
                       (Some "172.30.33.4") None))).
    now left.
  - destruct (proj1 (proj2 (X10_discovery_then_confirm example_const []
                              (new_flow example_const)
                              (mkHassioServiceInfo "series-complete-plex"
                                 None None)))
                (fun H => H)) as (flow1 & H & _).
    exists flow1. exact H.
Defined.

(** ** The sensors of an entry *)

Lemma sensor_keys_plain (description : SeriesCompleteSensorDescription) :
  In description SENSORS -> has_char "_" (key description) = false.
Proof.
  unfold SENSORS. simpl.
  intros [<- | [<- | [<- | [<- | [<- | []]]]]]; reflexivity.
Qed.

Lemma sensor_key_inj (d1 d2 : SeriesCompleteSensorDescription) :
  In d1 SENSORS -> In d2 SENSORS -> key d1 = key d2 -> d1 = d2.
Proof.
  unfold SENSORS. simpl.
  intros [<- | [<- | [<- | [<- | [<- | []]]]]]
         [<- | [<- | [<- | [<- | [<- | []]]]]] H;
    try reflexivity; discriminate H.
Qed.

(** X11: the set-up of the sensor platform adds five sensors for an
    entry, and the unique id of a sensor tells its entry and its
    description: two sensors, of the same entry or of two entries, have
    the same unique id only if they belong to the same entry and show the
    same figure.  All sensors of an entry carry the device identifier of
    the entry and, as configuration URL, [http://host:port] of its
    coordinator. *)
Theorem X11_sensor_unique_ids
    (const : Const) (entry1 entry2 : string) (c1 c2 : CoordinatorConfig)
    (s1 s2 : SeriesCompleteSensor) :
  In s1 (sensor_setup_entry const entry1 c1) ->
  In s2 (sensor_setup_entry const entry2 c2) ->
  List.length (sensor_setup_entry const entry1 c1) = 5%nat /\
  device_identifiers s1 = [(DOMAIN const, entry1)] /\
  configuration_url s1
    = ("http://" ++ _host c1 ++ ":" ++ py_str_int (_port c1))%string /\
  (_attr_unique_id s1 = _attr_unique_id s2 ->
   entry1 = entry2 /\ entity_description s1 = entity_description s2).
Proof.
  unfold sensor_setup_entry. intros H1 H2.
  apply in_map_iff in H1. destruct H1 as (d1 & <- & Hd1).
  apply in_map_iff in H2. destruct H2 as (d2 & <- & Hd2).
  split; [reflexivity|]. split; [reflexivity|]. split; [reflexivity|].
  cbn [sensor_init _attr_unique_id entity_description]. intros H.
  apply append_separator_inj in H; try now apply sensor_keys_plain.
  destruct H as (He & Hk). split; [assumption|].
  now apply sensor_key_inj.
Qed.

Lemma X11_sensor_unique_ids_witness :
  _attr_unique_id
    (sensor_init example_const "01JABC" (mkCoordinatorConfig "plex.lan" 8080
                                           "http://plex.lan:8080" 300)
       completion_sensor)
  = "01JABC_completion" /\
  ("01JABC_completion" = "01JABC_completion" ->
   "01JABC" = "01JABC" /\ completion_sensor = completion_sensor).
Proof.
  split; [reflexivity|].
  apply (X11_sensor_unique_ids example_const "01JABC" "01JABC"
           (mkCoordinatorConfig "plex.lan" 8080 "http://plex.lan:8080" 300)
           (mkCoordinatorConfig "plex.lan" 8080 "http://plex.lan:8080" 300)
           (sensor_init example_const "01JABC"
              (mkCoordinatorConfig "plex.lan" 8080 "http://plex.lan:8080" 300)
              completion_sensor)
           (sensor_init example_const "01JABC"
              (mkCoordinatorConfig "plex.lan" 8080 "http://plex.lan:8080" 300)
              completion_sensor)).
  - unfold sensor_setup_entry, SENSORS. simpl. tauto.
  - unfold sensor_setup_entry, SENSORS. simpl. tauto.
Defined.

(** ** The float tests and the integers *)

Lemma Zdigits2_eq (z n : Z) : 2 ^ (n - 1) <= z < 2 ^ n -> Zdigits2 z = n.
Proof.
  intros (Hl & Hu).
  assert (Hn : 0 <= n).
  { destruct (Z_le_gt_dec 0 n) as [|Hneg]; [assumption|].
    rewrite (Z.pow_neg_r 2 n) in Hu by lia.
    rewrite (Z.pow_neg_r 2 (n - 1)) in Hl by lia. lia. }
  pose proof (Zdigits2_ge_of_le z n Hl).
  assert (Hz : 0 <= z).
  { assert (0 <= 2 ^ (n - 1)) by (apply Z.pow_nonneg; lia). lia. }
  pose proof (Zdigits2_le_of_lt z n Hz Hn Hu). lia.
Qed.

(** With enough bits and above the subnormal range, the right shift
    leaves exactly 53 bits. *)
Lemma shr_fexp_normal (M E : Z) (l : location) :
  0 < M -> -1021 <= Zdigits2 M + E -> E <= Zdigits2 M + E - 53 ->
  let '(mrs, e1) := shr_fexp F.prec F.emax M E l in
  e1 = Zdigits2 M + E - 53 /\
  shr_m mrs = M / 2 ^ (Zdigits2 M - 53) /\
  2 ^ 52 <= shr_m mrs < 2 ^ 53.
Proof.
  intros HM HD HE. unfold shr_fexp, shr.
  assert (Hrec : shr_m (shr_record_of_loc M l) = M)
    by (destruct l as [|[]]; reflexivity).
  pose proof (fexp64_eq (Zdigits2 M + E)) as Hf.
  pose proof (Zdigits2_lower M HM) as Hlow.
  pose proof (Zdigits2_upper M ltac:(lia)) as Hup.
  destruct (fexp F.prec F.emax (Zdigits2 M + E) - E) as [|p|p] eqn:Hn; try lia.
  - rewrite Hrec. assert (Hd : Zdigits2 M = 53) by lia.
    rewrite Hd in *. rewrite Z.sub_diag, Z.pow_0_r, Z.div_1_r.
    split; [lia|]. split; [reflexivity|]. simpl in Hlow. lia.
  - assert (Hp : Z.pos p = Zdigits2 M - 53) by lia.
    assert (Hpow : 0 < 2 ^ Z.pos p) by (apply Z.pow_pos_nonneg; lia).
    rewrite iter_shr_1_div by (rewrite Hrec; lia). rewrite Hrec, <- Hp.
    split; [lia|]. split; [reflexivity|]. split.
    + apply Z.div_le_lower_bound; [assumption|].
      rewrite <- Z.pow_add_r by lia.
      now replace (Z.pos p + 52) with (Zdigits2 M - 1) by lia.
    + apply Z.div_lt_upper_bound; [assumption|].
      rewrite <- Z.pow_add_r by lia.
      now replace (Z.pos p + 53) with (Zdigits2 M) by lia.
Qed.

(** Rounding a significand with enough bits gives an infinity or a
    normal float, whose value is not below the truncated significand. *)
Lemma binary_round_aux_normal (s : bool) (M E : Z) (l : location) :
  0 < M -> -1021 <= Zdigits2 M + E -> E <= Zdigits2 M + E - 53 ->
  binary_round_aux F.prec F.emax s M E l = S754_infinity s \/
  exists m e,
    binary_round_aux F.prec F.emax s M E l = S754_finite s m e /\
    2 ^ 52 <= Zpos m < 2 ^ 53 /\
    Zdigits2 M + E - 53 <= e /\
    M / 2 ^ (Zdigits2 M - 53) <= Zpos m * 2 ^ (e - (Zdigits2 M + E - 53)).
Proof.
  intros HM HD HE. unfold binary_round_aux.
  pose proof (shr_fexp_normal M E l HM HD HE) as H1.
  destruct (shr_fexp F.prec F.emax M E l) as [mrs' e1].
  destruct H1 as (He1 & Hm' & Hb').
  set (mr := round_nearest_even (shr_m mrs') (loc_of_shr_record mrs')).
  assert (Hmr : shr_m mrs' <= mr <= 2 ^ 53).
  { unfold mr, round_nearest_even.
    destruct (loc_of_shr_record mrs') as [|[]];
      try destruct (Z.even (shr_m mrs')); lia. }
  assert (Hdr : Zdigits2 mr = 53 \/ (Zdigits2 mr = 54 /\ mr = 2 ^ 53)).
  { destruct (Z.eq_dec mr (2 ^ 53)) as [-> | Hne]; [right; now split|].
    left. apply Zdigits2_eq. simpl. lia. }
  pose proof (shr_fexp_normal mr e1 loc_Exact ltac:(lia) ltac:(lia)
                ltac:(lia)) as H2.
  destruct (shr_fexp F.prec F.emax mr e1 loc_Exact) as [mrs'' e2].
  destruct H2 as (He2 & Hm'' & Hb'').
  destruct (shr_m mrs'') as [|m|m] eqn:Hm; try lia.
  destruct (e2 <=? F.emax - F.prec); [|now left].
  right. exists m, e2. split; [reflexivity|]. split; [assumption|].
  split; [lia|].
  rewrite <- Hm'. destruct Hdr as [Hd | (Hd & Hv)].
  - rewrite Hd, Z.sub_diag, Z.pow_0_r, Z.div_1_r in Hm''.
    replace (e2 - (Zdigits2 M + E - 53)) with 0 by lia. lia.
  - rewrite Hd, Hv in Hm''. change (2 ^ 53 / 2 ^ (54 - 53)) with (2 ^ 52) in Hm''.
    replace (e2 - (Zdigits2 M + E - 53)) with 1 by lia. lia.
Qed.

(** What the division core computes on two positive integers below
    [2^53] bits apart: the quotient of [o * 2^s] by [t], with at least 53
    bits, and whether the division is exact. *)
Lemma SFdiv_core_binary_spec (o t : positive) :
  -1021 <= Zdigits2 (Zpos o) - Zdigits2 (Zpos t) ->
  exists q r l s,
    SFdiv_core_binary F.prec F.emax (Zpos o) 0 (Zpos t) 0 = (q, - s, l) /\
    s = Z.max (53 - (Zdigits2 (Zpos o) - Zdigits2 (Zpos t))) 0 /\
    Zpos o * 2 ^ s = Zpos t * q + r /\ 0 <= r < Zpos t /\
    (l <> loc_Exact -> r <> 0) /\
    2 ^ 52 <= q.
Proof.
  intros Hd. unfold SFdiv_core_binary.
  set (d1 := Zdigits2 (Z.pos o)) in *. set (d2 := Zdigits2 (Z.pos t)) in *.
  rewrite !Z.add_0_r, Z.sub_0_r.
  pose proof (fexp64_eq (d1 - d2)) as Hf.
  set (e' := Z.min (fexp F.prec F.emax (d1 - d2)) 0).
  set (s := Z.max (53 - (d1 - d2)) 0).
  assert (He' : e' = - s) by (unfold e', s; lia).
  assert (Hs : 0 <= s) by (unfold s; lia).
  set (m' := match 0 - e' with
             | Zpos _ => Z.shiftl (Zpos o) (0 - e')
             | Z0 => Zpos o
             | Zneg _ => 0
             end).
  assert (Hm' : m' = Zpos o * 2 ^ s).
  { unfold m'. replace (0 - e') with s by lia.
    destruct s as [|p|p] eqn:Es; try lia.
    now rewrite Z.shiftl_mul_pow2 by lia. }
  pose proof (Z_div_mod m' (Zpos t) ltac:(lia)) as Hdm.
  destruct (Z.div_eucl m' (Z.pos t)) as [q r]. destruct Hdm as (Hq & Hr).
  exists q, r, (new_location (Z.pos t) r), s.
  rewrite He'. split; [reflexivity|]. split; [reflexivity|].
  split; [lia|]. split; [assumption|]. split.
  - intros Hl ->. apply Hl. unfold new_location.
    destruct (Z.even (Z.pos t)); reflexivity.
  - pose proof (Zdigits2_lower (Zpos o) ltac:(lia)) as Hlo. fold d1 in Hlo.
    pose proof (Zdigits2_upper (Zpos t) ltac:(lia)) as Hut. fold d2 in Hut.
    assert (Hd1 : 1 <= d1) by (unfold d1; simpl; lia).
    assert (Hd2 : 1 <= d2) by (unfold d2; simpl; lia).
    assert (Hexp : d2 + 52 <= d1 - 1 + s) by (unfold s; lia).
    assert (Hpow : 2 ^ d2 * 2 ^ 52 <= 2 ^ (d1 - 1) * 2 ^ s).
    { rewrite <- !Z.pow_add_r by lia. apply Z.pow_le_mono_r; lia. }
    assert (Hps : 0 < 2 ^ s) by (apply Z.pow_pos_nonneg; lia).
    assert (Hlow : 2 ^ (d1 - 1) * 2 ^ s <= Z.pos o * 2 ^ s)
      by (apply Z.mul_le_mono_nonneg_r; lia).
    assert (Hq0 : 0 <= q) by nia.
    assert (H52 : 0 < 2 ^ 52) by reflexivity.
    assert (Hlt : 2 ^ d2 * 2 ^ 52 < Z.pos t * (q + 1)) by lia.
    assert (Hqt : Z.pos t * (q + 1) <= 2 ^ d2 * (q + 1))
      by (apply Z.mul_le_mono_nonneg_r; lia).
    assert (0 < 2 ^ d2) by (apply Z.pow_pos_nonneg; lia).
    nia.
Qed.

Lemma of_Z_50 : F.of_Z 50 = S754_finite false 7036874417766400 (-47).
Proof. reflexivity. Qed.

Lemma fmul_int_100_finite (s : bool) (m : positive) (e : Z) :
  fmul_int (S754_finite s m e) 100 =
  binary_round_aux F.prec F.emax s (Zpos (m * 7036874417766400)) (e + -46)
    loc_Exact.
Proof.
  unfold fmul_int. rewrite of_Z_100. unfold F.mul, SFmul.
  now destruct s.
Qed.

(** A normal float of exponent at least [g - 6], times 100, is not below
    the float of significand [100 * 2^46] and exponent [g]. *)
Lemma fmul_int_100_above (m : positive) (e g : Z) :
  2 ^ 52 <= Zpos m < 2 ^ 53 -> g - 6 <= e -> -1000 <= g ->
  fmul_int (S754_finite false m e) 100 = S754_infinity false \/
  exists mp ep,
    fmul_int (S754_finite false m e) 100 = S754_finite false mp ep /\
    (g < ep \/ (ep = g /\ 7036874417766400 <= Zpos mp)).
Proof.
  intros Hm He Hg. rewrite fmul_int_100_finite.
  set (M := Z.pos (m * 7036874417766400)).
  assert (HM : M = Zpos m * 7036874417766400) by (unfold M; lia).
  assert (Hlow : 2 ^ 52 * 7036874417766400 <= M) by lia.
  assert (Hup : M < 2 ^ 106).
  { change (2 ^ 106) with (2 ^ 53 * 2 ^ 53). rewrite HM.
    change (2 ^ 53) with 9007199254740992 in *. nia. }
  assert (Hd1 : 105 <= Zdigits2 M).
  { apply Zdigits2_ge_of_le. change (2 ^ (105 - 1)) with (2 ^ 52 * 2 ^ 52).
    change (2 ^ 52) with 4503599627370496 in *. lia. }
  assert (Hd2 : Zdigits2 M <= 106)
    by (apply Zdigits2_le_of_lt; lia).
  destruct (binary_round_aux_normal false M (e + -46) loc_Exact
              ltac:(lia) ltac:(lia) ltac:(lia))
    as [Hinf | (mp & ep & Heq & Hmp & Hep & Hval)]; [now left|].
  right. exists mp, ep. split; [assumption|].
  destruct (Z_lt_le_dec g ep) as [Hlt | Hle]; [now left|]. right.
  assert (Hd : Zdigits2 M = 105) by lia.
  assert (Hee : ep = g) by lia. split; [assumption|].
  rewrite Hd in Hval.
  replace (ep - (105 + (e + -46) - 53)) with 0 in Hval by lia.
  assert (7036874417766400 <= M / 2 ^ (105 - 53)); [|lia].
  apply Z.div_le_lower_bound; [reflexivity|].
  change (2 ^ (105 - 53)) with (2 ^ 52). lia.
Qed.

(** A float below 1, read as a bound on the float just under it: either
    it is the largest float of its exponent, or it is one step lower. *)
Lemma fmul_int_100_below (m : positive) (e g : Z) :
  Zpos m < 2 ^ 53 -> e <= g - 7 -> -1000 <= g <= 900 ->
  Zpos m <= (2 ^ 53 - 1) * 2 ^ (g - 7 - e) ->
  (e = g - 7 /\ Zpos m = 2 ^ 53 - 1) \/
  bounded_float (7036874417766400 - 1) g g
    (fmul_int (S754_finite false m e) 100).
Proof.
  intros Hm He Hg Hle.
  destruct (Z.eq_dec e (g - 7)) as [Heq | Hne].
  - subst e. rewrite Z.sub_diag, Z.pow_0_r, Z.mul_1_r in Hle.
    destruct (Z.eq_dec (Zpos m) (2 ^ 53 - 1)) as [Hmax | Hlow];
      [left; now split|].
    right. rewrite fmul_int_100_finite.
    apply binary_round_aux_le; try lia; try reflexivity.
    + change (Zdigits2 (7036874417766400 - 1)) with 53. lia.
    + replace (g - (g - 7 + -46)) with 53 by lia.
      rewrite Pos2Z.inj_mul.
      change (2 ^ 53) with 9007199254740992 in *. lia.
    + intros H. now contradiction H.
  - right. rewrite fmul_int_100_finite.
    assert (Hpow : 0 < 2 ^ (g - 8 - e)) by (apply Z.pow_pos_nonneg; lia).
    apply binary_round_aux_le; try lia; try reflexivity.
    + change (Zdigits2 (7036874417766400 - 1)) with 53. lia.
    + replace (g - (e + -46)) with (54 + (g - 8 - e)) by lia.
      rewrite Z.pow_add_r by lia. rewrite Pos2Z.inj_mul.
      change (2 ^ 54) with 18014398509481984.
      change (2 ^ 53) with 9007199254740992 in *. nia.
    + intros H. now contradiction H.
Qed.

Lemma compare_above (B mp : positive) (g ep : Z) (x : F.float) :
  x = S754_infinity false \/
  (x = S754_finite false mp ep /\
   (g < ep \/ (ep = g /\ Zpos B <= Zpos mp))) ->
  SFleb (S754_finite false B g) x = true /\
  SFltb x (S754_finite false B g) = false.
Proof.
  intros [-> | (-> & Hc)]; [split; reflexivity|].
  unfold SFleb, SFltb, SFcompare.
  destruct Hc as [Hlt | (-> & Hle)].
  - assert (H1 : (g ?= ep) = Lt) by (apply Z.compare_lt_iff; lia).
    assert (H2 : (ep ?= g) = Gt) by (apply Z.compare_gt_iff; lia).
    rewrite H1, H2. split; reflexivity.
  - rewrite Z.compare_refl.
    change (Pos.compare_cont Eq B mp) with (Pos.compare B mp).
    change (Pos.compare_cont Eq mp B) with (Pos.compare mp B).
    destruct (Pos.compare_spec B mp) as [-> | H | H]; try lia.
    + rewrite Pos.compare_refl. split; reflexivity.
    + assert (H' : Pos.compare mp B = Gt) by (apply Pos.compare_gt_iff; lia).
      rewrite H'. split; reflexivity.
Qed.

Lemma compare_below (B : positive) (g : Z) (x : F.float) :
  bounded_float (Zpos B - 1) g g x ->
  SFleb (S754_finite false B g) x = false /\
  SFltb x (S754_finite false B g) = true.
Proof.
  intros [-> | (m & e & -> & He & Hm)]; [split; reflexivity|].
  unfold SFleb, SFltb, SFcompare.
  destruct (Z.eq_dec e g) as [-> | Hne].
  - rewrite Z.sub_diag, Z.pow_0_r in Hm. rewrite Z.compare_refl.
    change (Pos.compare_cont Eq B m) with (Pos.compare B m).
    change (Pos.compare_cont Eq m B) with (Pos.compare m B).
    assert (H1 : Pos.compare m B = Lt) by (apply Pos.compare_lt_iff; lia).
    assert (H2 : Pos.compare B m = Gt) by (apply Pos.compare_gt_iff; lia).
    rewrite H1, H2. split; reflexivity.
  - assert (H1 : (e ?= g) = Lt) by (apply Z.compare_lt_iff; lia).
    assert (H2 : (g ?= e) = Gt) by (apply Z.compare_gt_iff; lia).
    rewrite H1, H2. split; reflexivity.
Qed.

Lemma div_raw_pos (o t : positive) :
  F.div (F.raw (Zpos o)) (F.raw (Zpos t)) =
  let '(q, e', l) := SFdiv_core_binary F.prec F.emax (Zpos o) 0 (Zpos t) 0 in
  binary_round_aux F.prec F.emax false q e' l.
Proof. reflexivity. Qed.

(** The quotient of two positive integers is a normal float, with an
    exponent that grows with the quotient. *)
Lemma div_raw_above (o t : positive) (k : Z) :
  -1021 <= Zdigits2 (Zpos o) - Zdigits2 (Zpos t) <= 1022 ->
  0 <= k <= 1 -> Zpos t <= Zpos o * 2 ^ k ->
  exists m e,
    F.div (F.raw (Zpos o)) (F.raw (Zpos t)) = S754_finite false m e /\
    2 ^ 52 <= Zpos m < 2 ^ 53 /\ -52 - k <= e.
Proof.
  intros Hd Hk Hle.
  pose proof (div_raw_not_inf (Zpos o) (Zpos t) ltac:(lia) ltac:(lia)) as Hfin.
  rewrite div_raw_pos in *.
  destruct (SFdiv_core_binary_spec o t ltac:(lia))
    as (q & r & l & s & Hcore & Hs & Hq & Hr & _ & Hq52).
  rewrite Hcore in *.
  assert (Hs0 : 0 <= s) by lia.
  assert (Hdq : 53 <= Zdigits2 q) by (apply Zdigits2_ge_of_le; exact Hq52).
  assert (Hqs : s + 1 - k <= Zdigits2 q).
  { apply Zdigits2_ge_of_le.
    destruct (Z_le_gt_dec (s - k) 0) as [Hneg | Hpos].
    - assert (2 ^ (s + 1 - k - 1) <= 2 ^ 0)
        by (destruct (Z_lt_le_dec (s + 1 - k - 1) 0);
            [rewrite Z.pow_neg_r by lia; simpl; lia
            | apply Z.pow_le_mono_r; lia]).
      change (2 ^ 0) with 1 in *. change (2 ^ 52) with 4503599627370496 in *.
      lia.
    - replace (s + 1 - k - 1) with (s - k) by lia.
      assert (Hsplit : 2 ^ s = 2 ^ (s - k) * 2 ^ k).
      { rewrite <- Z.pow_add_r by lia. f_equal. lia. }
      assert (Hpk : 0 < 2 ^ k) by (apply Z.pow_pos_nonneg; lia).
      assert (Hps : 0 < 2 ^ (s - k)) by (apply Z.pow_pos_nonneg; lia).
      assert (Z.pos t * 2 ^ (s - k) <= Z.pos o * 2 ^ k * 2 ^ (s - k))
        by (apply Z.mul_le_mono_nonneg_r; lia).
      nia. }
  destruct (binary_round_aux_normal false q (- s) l
              ltac:(change (2 ^ 52) with 4503599627370496 in *; lia)
              ltac:(lia) ltac:(lia))
    as [Hinf | (m & e & Heq & Hm & He & _)].
  - rewrite Hinf in Hfin. discriminate Hfin.
  - exists m, e. split; [assumption|]. split; [assumption | lia].
Qed.

(** When [o * 2^k < t] the quotient stays below [2^-k], by one step of
    the floats at least, provided [t] has at most 53 bits. *)
Lemma div_raw_below (o t : positive) (k : Z) :
  Zpos t <= 2 ^ 53 -> 0 <= k <= 1 -> Zpos o * 2 ^ k < Zpos t ->
  exists m e,
    F.div (F.raw (Zpos o)) (F.raw (Zpos t)) = S754_finite false m e /\
    Zpos m < 2 ^ 53 /\ e <= -53 - k /\
    Zpos m <= (2 ^ 53 - 1) * 2 ^ (-53 - k - e).
Proof.
  intros Ht Hk Hlt.
  assert (Hpk : 0 < 2 ^ k) by (apply Z.pow_pos_nonneg; lia).
  assert (Hd1 : 1 <= Zdigits2 (Zpos o)) by (simpl; lia).
  assert (Hd2 : Zdigits2 (Zpos t) <= 54).
  { apply Zdigits2_le_of_lt; lia. }
  assert (Hdd : Zdigits2 (Zpos o) + k <= Zdigits2 (Zpos t)).
  { pose proof (Zdigits2_upper (Zpos t) ltac:(lia)) as Hu.
    pose proof (Zdigits2_nonneg (Zpos t)) as Hn.
    assert (Zdigits2 (Zpos o) <= Zdigits2 (Zpos t) - k); [|lia].
    destruct (Z.eq_dec k 0) as [-> | Hk1].
    - apply Zdigits2_le_of_lt; try lia. rewrite Z.sub_0_r.
      change (2 ^ 0) with 1 in *. lia.
    - assert (k = 1) by lia. subst k. change (2 ^ 1) with 2 in *.
      assert (1 <= Zdigits2 (Zpos t)) by (simpl; lia).
      apply Zdigits2_le_of_lt; try lia.
      assert (2 ^ Zdigits2 (Zpos t) = 2 * 2 ^ (Zdigits2 (Zpos t) - 1)).
      { rewrite <- Z.pow_succ_r by lia. f_equal. lia. }
      lia. }
  pose proof (div_raw_not_inf (Zpos o) (Zpos t) ltac:(lia) ltac:(lia)) as Hfin.
  rewrite div_raw_pos in *.
  destruct (SFdiv_core_binary_spec o t ltac:(lia))
    as (q & r & l & s & Hcore & Hs & Hq & Hr & Hl & Hq52).
  rewrite Hcore in *.
  assert (Hs53 : 53 + k <= s) by lia.
  assert (Hdq : 53 <= Zdigits2 q) by (apply Zdigits2_ge_of_le; exact Hq52).
  assert (Hps : 0 < 2 ^ (s - 53 - k)) by (apply Z.pow_pos_nonneg; lia).
  assert (Hsplit : 2 ^ s = 2 ^ (s - 53 - k) * (2 ^ 53 * 2 ^ k)).
  { rewrite <- !Z.pow_add_r by lia. f_equal. lia. }
  (* t * q <= o * 2^s and o * 2^k <= t - 1 *)
  assert (Hbound : q <= (2 ^ 53 - 1) * 2 ^ (s - 53 - k) /\
                   (r <> 0 -> q < (2 ^ 53 - 1) * 2 ^ (s - 53 - k))).
  { set (P := 2 ^ (s - 53 - k)) in *. set (K := 2 ^ k) in *.
    change (2 ^ 53) with 9007199254740992 in *.
    assert (Hok : Z.pos o * K <= Z.pos t - 1) by lia.
    assert (H1 : Z.pos t * q + r <= (Z.pos t - 1) * (P * 9007199254740992)).
    { rewrite <- Hq, Hsplit.
      replace (Z.pos o * (P * (9007199254740992 * K)))
        with (Z.pos o * K * (P * 9007199254740992)) by ring.
      apply Z.mul_le_mono_nonneg_r; lia. }
    assert (H2 : (Z.pos t - 1) * (P * 9007199254740992)
                 <= Z.pos t * ((9007199254740992 - 1) * P)) by nia.
    split.
    - assert (Z.pos t * q <= Z.pos t * ((9007199254740992 - 1) * P)) by lia.
      apply Z.mul_le_mono_pos_l with (p := Z.pos t); lia.
    - intros Hr0.
      assert (Z.pos t * q < Z.pos t * ((9007199254740992 - 1) * P)) by lia.
      apply Z.mul_lt_mono_pos_l with (p := Z.pos t); lia. }
  destruct Hbound as (Hb1 & Hb2).
  destruct (binary_round_aux_normal false q (- s) l
              ltac:(change (2 ^ 52) with 4503599627370496 in *; lia)
              ltac:(lia) ltac:(lia))
    as [Hinf | (m & e & Heq & Hm & He & _)].
  { rewrite Hinf in Hfin. discriminate Hfin. }
  assert (Hle : bounded_float (2 ^ 53 - 1) (-53 - k) (-53 - k)
                  (binary_round_aux F.prec F.emax false q (- s) l)).
  { apply binary_round_aux_le; try lia.
    - change (Zdigits2 (2 ^ 53 - 1)) with 53. lia.
    - replace (-53 - k - - s) with (s - 53 - k) by lia. exact Hb1.
    - intros Hne. replace (-53 - k - - s) with (s - 53 - k) by lia.
      apply Hb2. now apply Hl. }
  rewrite Heq in Hle. destruct Hle as [Hz | (m' & e' & He' & Hel & Hml)];
    [discriminate Hz|].
  injection He' as <- <-.
  exists m, e. split; [assumption|]. split; [lia|]. split; assumption.
Qed.

Lemma shr_fexp_nonneg (M E : Z) (l : location) :
  0 <= M -> 0 <= shr_m (fst (shr_fexp F.prec F.emax M E l)).
Proof.
  intros HM. unfold shr_fexp, shr.
  assert (Hrec : shr_m (shr_record_of_loc M l) = M)
    by (destruct l as [|[]]; reflexivity).
  destruct (fexp F.prec F.emax (Zdigits2 M + E) - E) as [|p|p];
    cbn [fst]; try (rewrite Hrec; assumption).
  rewrite iter_shr_1_div by (rewrite Hrec; assumption). rewrite Hrec.
  apply Z.div_pos; [assumption | apply Z.pow_pos_nonneg; lia].
Qed.

(** Rounding keeps the sign it is given. *)
Lemma binary_round_aux_sign (s : bool) (M E : Z) (l : location) :
  0 <= M ->
  binary_round_aux F.prec F.emax s M E l = S754_zero s \/
  binary_round_aux F.prec F.emax s M E l = S754_infinity s \/
  exists m e, binary_round_aux F.prec F.emax s M E l = S754_finite s m e.
Proof.
  intros HM. unfold binary_round_aux.
  pose proof (shr_fexp_nonneg M E l HM) as H1.
  destruct (shr_fexp F.prec F.emax M E l) as [mrs' e1]. cbn [fst] in H1.
  set (mr := round_nearest_even (shr_m mrs') (loc_of_shr_record mrs')).
  assert (Hmr : 0 <= mr).
  { unfold mr, round_nearest_even.
    destruct (loc_of_shr_record mrs') as [|[]];
      try destruct (Z.even (shr_m mrs')); lia. }
  pose proof (shr_fexp_nonneg mr e1 loc_Exact Hmr) as H2.
  destruct (shr_fexp F.prec F.emax mr e1 loc_Exact) as [mrs'' e2].
  cbn [fst] in H2.
  destruct (shr_m mrs'') as [|m|m]; try lia.
  - now left.
  - destruct (e2 <=? F.emax - F.prec); [right; right; eauto | right; now left].
Qed.

(** A negative count gives a percentage below every positive number. *)
Lemma pct_tests_negative (o t : positive) :
  let pct := fmul_int (F.div (F.raw (Zneg o)) (F.raw (Zpos t))) 100 in
  fge_int pct 100 = false /\ flt_int pct 50 = true.
Proof.
  assert (Hq : F.div (F.raw (Zneg o)) (F.raw (Zpos t)) =
               let '(q, e', l) :=
                 SFdiv_core_binary F.prec F.emax (Zpos o) 0 (Zpos t) 0 in
               binary_round_aux F.prec F.emax true q e' l) by reflexivity.
  cbv zeta. rewrite Hq.
  pose proof (SFdiv_core_binary_bound o t) as Hc.
  destruct (SFdiv_core_binary F.prec F.emax (Z.pos o) 0 (Z.pos t) 0)
    as [[q e'] l].
  destruct Hc as (Hq0 & _ & _).
  unfold fge_int, flt_int, F.geb, F.ltb. rewrite of_Z_50.
  destruct (binary_round_aux_sign true q e' l Hq0)
    as [-> | [-> | (m & e & ->)]]; try (split; reflexivity).
  rewrite fmul_int_100_finite.
  destruct (binary_round_aux_sign true (Z.pos (m * 7036874417766400))
              (e + -46) loc_Exact ltac:(lia))
    as [-> | [-> | (m' & e'' & ->)]]; split; reflexivity.
Qed.

(** The two tests on [owned / total_eps * 100], read on the integers: for
    a [total_eps] of at most 53 bits the test [>= 100] is [owned >=
    total_eps] and the test [< 50] is [2 * owned < total_eps]. *)
Lemma pct_tests (o t : Z) :
  0 < t <= 2 ^ 53 -> Z.abs o < float_range ->
  let pct := fmul_int (F.div (F.raw o) (F.raw t)) 100 in
  fge_int pct 100 = (t <=? o) /\ flt_int pct 50 = (2 * o <? t).
Proof.
  intros Ht Ho. destruct t as [|t|t]; try lia.
  destruct o as [|o|o].
  - split; reflexivity.
  - cbv zeta.
    assert (Hdo : Zdigits2 (Zpos o) <= 1023)
      by (apply Zdigits2_abs_le; [lia | exact Ho]).
    assert (Hdt : 1 <= Zdigits2 (Zpos t)) by (simpl; lia).
    unfold fge_int, flt_int, F.geb, F.ltb. rewrite of_Z_100, of_Z_50.
    destruct (Z.leb_spec (Zpos t) (Zpos o)) as [Hle | Hlt].
    + (* complete *)
      assert (H2 : (2 * Zpos o <? Zpos t) = false) by (apply Z.ltb_ge; lia).
      rewrite H2.
      pose proof (Zdigits2_mono (Zpos t) (Zpos o) ltac:(lia)) as Hmono.
      destruct (div_raw_above o t 0 ltac:(lia) ltac:(lia)
                  ltac:(change (2 ^ 0) with 1; lia))
        as (m & e & -> & Hm & He).
      split.
      * destruct (fmul_int_100_above m e (-46) Hm ltac:(lia) ltac:(lia))
          as [Hinf | (mp & ep & Hp & Hc)].
        -- rewrite Hinf. reflexivity.
        -- apply (compare_above 7036874417766400 mp (-46) ep). right.
           now split.
      * destruct (fmul_int_100_above m e (-47) Hm ltac:(lia) ltac:(lia))
          as [Hinf | (mp & ep & Hp & Hc)].
        -- rewrite Hinf. reflexivity.
        -- apply (compare_above 7036874417766400 mp (-47) ep). right.
           now split.
    + split.
      * (* not complete *)
        destruct (div_raw_below o t 0 ltac:(lia) ltac:(lia)
                    ltac:(change (2 ^ 0) with 1; lia))
          as (m & e & -> & Hm & He & Hb).
        destruct (fmul_int_100_below m e (-46) Hm ltac:(lia) ltac:(lia)
                    ltac:(replace (-46 - 7 - e) with (-53 - 0 - e) by lia;
                          exact Hb))
          as [(-> & Hmax) | Hbd].
        -- assert (m = 9007199254740991%positive) as -> by lia.
           vm_compute. reflexivity.
        -- now apply (compare_below 7036874417766400 (-46)).
      * destruct (Z.ltb_spec (2 * Zpos o) (Zpos t)) as [Hcrit | Hinc].
        -- (* critical *)
           destruct (div_raw_below o t 1 ltac:(lia) ltac:(lia)
                       ltac:(change (2 ^ 1) with 2; lia))
             as (m & e & -> & Hm & He & Hb).
           destruct (fmul_int_100_below m e (-47) Hm ltac:(lia) ltac:(lia)
                       ltac:(replace (-47 - 7 - e) with (-53 - 1 - e) by lia;
                             exact Hb))
             as [(-> & Hmax) | Hbd].
           ++ assert (m = 9007199254740991%positive) as -> by lia.
              vm_compute. reflexivity.
           ++ now apply (compare_below 7036874417766400 (-47)).
        -- (* incomplete *)
           assert (Hdd : Zdigits2 (Zpos t) <= Zdigits2 (Zpos o) + 1).
           { pose proof (Zdigits2_upper (Zpos o) ltac:(lia)) as Hu.
             pose proof (Zdigits2_nonneg (Zpos o)) as Hn.
             apply Zdigits2_le_of_lt; try lia.
             rewrite Z.pow_add_r by lia. change (2 ^ 1) with 2. lia. }
           pose proof (Zdigits2_mono (Zpos o) (Zpos t) ltac:(lia)) as Hmono.
           destruct (div_raw_above o t 1 ltac:(lia) ltac:(lia)
                       ltac:(change (2 ^ 1) with 2; lia))
             as (m & e & -> & Hm & He).
           destruct (fmul_int_100_above m e (-47) Hm ltac:(lia) ltac:(lia))
             as [Hinf | (mp & ep & Hp & Hc)].
           ++ rewrite Hinf. reflexivity.
           ++ apply (compare_above 7036874417766400 mp (-47) ep). right.
              now split.
  - destruct (pct_tests_negative o t) as (H1 & H2). cbv zeta.
    rewrite H1, H2. split; symmetry.
    + apply Z.leb_gt. lia.
    + apply Z.ltb_lt. lia.
Qed.

Lemma bucket_of_tests (o t : Z) :
  0 < t <= 2 ^ 53 -> Z.abs o < float_range ->
  bucket_of (fmul_int (F.div (F.raw o) (F.raw t)) 100) =
  (if t <=? o then Complete else if 2 * o <? t then Critical else Incomplete).
Proof.
  intros Ht Ho. destruct (pct_tests o t Ht Ho) as (H1 & H2).
  unfold bucket_of. now rewrite H1, H2.
Qed.

(** On a plain record the turn of the loop decides on the integers. *)
Lemma verdict_plain_record (s : pyval) :
  plain_record s = true -> verdict s = Ok (bucket_by_counts s).
Proof.
  unfold plain_record, bucket_by_counts, record_counts.
  destruct s as [| | | | | |kv]; try discriminate.
  unfold verdict, py_get, int_field.
  destruct (lookup "episode_count" kv) as [[| |o| | | |]|]; try discriminate;
    destruct (lookup "totalEpisodes" kv) as [[| |t| | | |]|];
    try discriminate; intros H; apply andb_true_iff in H;
    destruct H as (Ho & Ht); apply Z.ltb_lt in Ho; apply Z.leb_le in Ht;
    cbn [bind]; unfold has_episodes, truthy, py_gt_int.
  - destruct (Z.eqb_spec t 0) as [-> | Hnz]; [reflexivity|]. cbn [negb].
    destruct (Z.ltb_spec 0 t) as [Hpos | Hneg]; cbn [bind]; [|reflexivity].
    unfold percentage, py_truediv. cbn [as_number].
    rewrite int_truediv_in_range by lia. cbn [bind].
    now rewrite bucket_of_tests by lia.
  - reflexivity.
  - destruct (Z.eqb_spec t 0) as [-> | Hnz]; [reflexivity|]. cbn [negb].
    destruct (Z.ltb_spec 0 t) as [Hpos | Hneg]; cbn [bind]; [|reflexivity].
    unfold percentage, py_truediv. cbn [as_number].
    rewrite int_truediv_in_range by lia. cbn [bind].
    now rewrite bucket_of_tests by lia.
  - reflexivity.
Qed.

(** X12: for a record whose [totalEpisodes] is an integer of at most 53
    bits and whose [episode_count] is an integer, or absent, the float
    tests decide as the integers do: the record is complete when
    [episode_count >= totalEpisodes], critical when
    [2 * episode_count < totalEpisodes], incomplete otherwise; rounding
    never moves a ratio across 100 or 50.  Beyond 53 bits it can:
    [2^60 - 1] episodes of [2^60] count as complete. *)
Theorem X12_classification_on_integers :
  (forall (kv : list (string * pyval)) (owned total_eps : Z) (d : Snapshot),
     lookup "totalEpisodes" kv = Some (PInt total_eps) ->
     int_field "episode_count" kv = Some owned ->
     0 < total_eps <= 2 ^ 53 -> Z.abs owned < float_range ->
     count_series d (PDict kv) =
     Ok (if total_eps <=? owned then incr_complete d
         else if 2 * owned <? total_eps then incr_critical d
         else incr_incomplete d)) /\
  (forall d, count_series d (series_of "s" (2 ^ 60 - 1) (2 ^ 60))
             = Ok (incr_complete d)).
Proof.
  split; [|intros d; vm_compute; reflexivity].
  intros kv owned total_eps d Ht Ho Hpos Hrange.
  assert (Hplain : plain_record (PDict kv) = true).
  { unfold plain_record, record_counts, int_field at 2. rewrite Ho, Ht.
    apply andb_true_iff. split; [apply Z.ltb_lt | apply Z.leb_le]; lia. }
  rewrite count_series_verdict, (verdict_plain_record _ Hplain).
  unfold bucket_by_counts, record_counts, int_field at 2. rewrite Ho, Ht.
  destruct (Z.ltb_spec 0 total_eps); [|lia]. cbn [bind].
  destruct (total_eps <=? owned); [reflexivity|].
  now destruct (2 * owned <? total_eps).
Qed.

Lemma X12_classification_on_integers_witness :
  count_series initial_data (series_of "Kappa" 11 22)
  = Ok (incr_incomplete initial_data).
Proof.
  apply (proj1 X12_classification_on_integers
           [("title", PStr "Kappa"); ("episode_count", PInt 11);
            ("totalEpisodes", PInt 22)] 11 22 initial_data);
    try reflexivity.
  split; [reflexivity | discriminate].
Defined.

Lemma count_bucket_by_counts (b : bucket) (l : list pyval) :
  Forall (fun s => plain_record s = true) l ->
  forallb raises_nothing l = true /\ count_bucket b l = count_by_counts b l.
Proof.
  induction 1 as [|s rest Hs _ (IH1 & IH2)]; [split; reflexivity|].
  split.
  - simpl. rewrite IH1. unfold raises_nothing.
    now rewrite (verdict_plain_record s Hs).
  - rewrite count_bucket_cons. unfold count_by_counts in *. simpl filter.
    unfold in_bucket. rewrite (verdict_plain_record s Hs).
    destruct (bucket_by_counts s) as [b'|]; cbn [option_bucket_eqb].
    + destruct b, b'; cbn [bucket_eqb]; rewrite ?List.length_cons; lia.
    + assumption.
Qed.

(** X13: for a list of plain records the update returns a snapshot whose
    counters are counts on the integers: [complete] is the number of
    records with episodes of which all are owned, [critical] the number
    of those of which less than half are owned, and [incomplete] the
    number of the others with episodes. *)
Theorem X13_counters_on_integers (l : list pyval) :
  Forall (fun s => plain_record s = true) l ->
  exists d,
    async_update_data (PostResponse 200 (JsonBody (PList l))) = Ok d /\
    total d = Z.of_nat (List.length l) /\
    complete d = count_by_counts Complete l /\
    critical d = count_by_counts Critical l /\
    incomplete d = count_by_counts Incomplete l.
Proof.
  intros Hl. pose proof (async_update_data_buckets l) as Hb.
  rewrite (proj1 (count_bucket_by_counts Complete l Hl)) in Hb.
  destruct Hb as (d & Hd & _ & Ht & Hc & Hk & Hi & _).
  exists d. split; [assumption|]. split; [assumption|].
  rewrite <- (proj2 (count_bucket_by_counts Complete l Hl)).
  rewrite <- (proj2 (count_bucket_by_counts Critical l Hl)).
  rewrite <- (proj2 (count_bucket_by_counts Incomplete l Hl)).
  repeat split; assumption.
Qed.

Lemma X13_counters_on_integers_witness :
  exists d,
    async_update_data example_poll = Ok d /\
    total d = 4 /\ complete d = 1 /\ critical d = 1 /\ incomplete d = 1.
Proof.
  apply (X13_counters_on_integers example_series).
  repeat constructor.
Defined.
